(** * TBflix: the movie fetching routine of [src/App.jsx]

    A shallow embedding of [fetchWithRetry] and [fetchMovies], the two
    functions of the [App] component that carry logic, and of the JavaScript
    values they handle.

    Conventions of the model.
    - A JavaScript string is a [string]; one character stands for one UTF-16
      code unit below 256.
    - A JavaScript number is kept as the decimal text that [ToString] gives
      for it ([JNum "7.5"]); the code only tests numbers for truthiness,
      compares them with [0] and prints them.
    - [undefined] is [None] of [option json] and [null] is [Some JNull]; JSON
      itself has no [undefined].
    - An object is the list of its own enumerable properties, in enumeration
      order.
    - The network is a script [world]: the answer to the [k]-th HTTP call, as
      a function of the requested URL.  Everything the routine does to the
      outside (HTTP calls, timers, the console) is appended to a trace.
    - The wording of the engine's own [TypeError]s follows V8. *)

From Stdlib Require Import String Ascii List ZArith NArith Lia Bool.
From Stdlib Require Import DecimalString FunctionalExtensionality.
From Equations Require Import Equations.
Import ListNotations.

Set Warnings "-register-all".
Local Open Scope string_scope.
Local Open Scope Z_scope.

(** ** JavaScript values *)

Module Js.

Inductive json : Type :=
| JNull
| JBool (b : bool)
| JNum (repr : string)
| JStr (s : string)
| JArr (elems : list json)
| JObj (props : list (string * json)).

(** A thrown [Error] object: the constructor's name and the [message]. *)
Record js_error : Type := mkError { err_name : string; err_message : string }.

Definition TypeError (msg : string) : js_error := mkError "TypeError" msg.
Definition Error (msg : string) : js_error := mkError "Error" msg.

(** The result of evaluating something that may throw. *)
Inductive completion (A : Type) : Type :=
| Normal (a : A)
| Threw (e : js_error).
Arguments Normal {A} a.
Arguments Threw {A} e.

Definition undefined : option json := None.

Definition nat_to_string (n : nat) : string :=
  NilZero.string_of_uint (Nat.to_uint n).

Definition Z_to_string (z : Z) : string :=
  NilZero.string_of_int (Z.to_int z).

(** [s.includes(sub)] *)
Fixpoint includes (s sub : string) : bool :=
  prefix sub s ||
  match s with
  | EmptyString => false
  | String _ rest => includes rest sub
  end.

(** Own property lookup in an object's property list. *)
Fixpoint lookup (k : string) (props : list (string * json)) : option json :=
  match props with
  | [] => None
  | (k', v) :: rest => if String.eqb k k' then Some v else lookup k rest
  end.

(** [obj[k] = v] on an ordinary object: an existing property keeps its place,
    a new one goes last. *)
Fixpoint set_prop (k : string) (v : json) (props : list (string * json))
  : list (string * json) :=
  match props with
  | [] => [(k, v)]
  | (k', v') :: rest =>
      if String.eqb k k' then (k', v) :: rest else (k', v') :: set_prop k v rest
  end.

(** ToBoolean. *)
Definition truthy (v : option json) : bool :=
  match v with
  | None => false
  | Some JNull => false
  | Some (JBool b) => b
  | Some (JNum r) => negb (String.eqb r "0") && negb (String.eqb r "NaN")
  | Some (JStr s) => negb (String.eqb s "")
  | Some (JArr _) => true
  | Some (JObj _) => true
  end.

(** [v.name] for a name that is neither an array index nor a member of a
    built-in prototype ([results], [poster_path]): only [null] and
    [undefined] throw, only an object can have the property. *)
Definition member (v : option json) (name : string) : completion (option json) :=
  match v with
  | None =>
      Threw (TypeError ("Cannot read properties of undefined (reading '" ++ name ++ "')"))
  | Some JNull =>
      Threw (TypeError ("Cannot read properties of null (reading '" ++ name ++ "')"))
  | Some (JObj props) => Normal (lookup name props)
  | Some _ => Normal None
  end.

(** ToString of a value parsed from JSON, as a template literal applies it.
    An array joins its elements with commas, [null] elements print as
    nothing; an object prints through [Object.prototype.toString] unless an
    own [toString] property (never callable in parsed JSON) shadows it, in
    which case the conversion throws. *)
Fixpoint to_string (v : json) : completion string :=
  match v with
  | JNull => Normal "null"
  | JBool true => Normal "true"
  | JBool false => Normal "false"
  | JNum r => Normal r
  | JStr s => Normal s
  | JArr elems =>
      let elem_string (e : json) : completion string :=
        match e with
        | JNull => Normal ""
        | _ => to_string e
        end in
      (fix join (l : list json) : completion string :=
         match l with
         | [] => Normal ""
         | [e] => elem_string e
         | e :: rest =>
             match elem_string e with
             | Threw err => Threw err
             | Normal s =>
                 match join rest with
                 | Threw err => Threw err
                 | Normal t => Normal (s ++ "," ++ t)
                 end
             end
         end) elems
  | JObj props =>
      match lookup "toString" props with
      | Some _ => Threw (TypeError "Cannot convert object to primitive value")
      | None => Normal "[object Object]"
      end
  end.

(** The characters of a string, one string per code unit. *)
Fixpoint chars (s : string) : list json :=
  match s with
  | EmptyString => []
  | String c rest => JStr (String c EmptyString) :: chars rest
  end.

(** Index-named properties ["0"], ["1"], ... for the elements of a list. *)
Fixpoint indexed (i : nat) (l : list json) : list (string * json) :=
  match l with
  | [] => []
  | e :: rest => (nat_to_string i, e) :: indexed (S i) rest
  end.

(** The properties an object spread [{...v}] copies. *)
Definition spread (v : json) : list (string * json) :=
  match v with
  | JNull | JBool _ | JNum _ => []
  | JStr s => indexed 0 (chars s)
  | JArr elems => indexed 0 elems
  | JObj props => props
  end.

End Js.
Import Js.

(** ** The outside world and the component's state *)

(** The second argument of [fetch]. *)
Record request_options : Type := mkOptions {
  method : string;
  headers : list (string * string)
}.

(** What the routine reads of a [Response]: [ok], [status], and what
    [json()] settles to. *)
Record response : Type := mkResponse {
  ok : bool;
  status : Z;
  json_body : completion json
}.

(** [fetch] either rejects or resolves with a response. *)
Inductive net_result : Type :=
| Rejected (e : js_error)
| Responded (r : response).

Definition world : Type := nat -> string -> net_result.

Inductive event : Type :=
| EvFetch (url : string) (options : request_options)
| EvTimeout (ms : Z)
| EvConsoleError (label : string) (e : js_error).

(** The five [useState] cells of [App]. *)
Record app_state : Type := mkApp {
  searchTerm : string;
  movieList : list json;
  errorMessage : string;
  isLoading : bool;
  selectedMovie : option json
}.

Definition initial_app : app_state := mkApp "" [] "" false (Some JNull).

Record machine : Type := mkMachine {
  app : app_state;
  trace : list event;
  calls : nat
}.

Definition boot : machine := mkMachine initial_app [] 0.

(** ** A state and exception monad for the asynchronous code *)

Definition M (A : Type) : Type := machine -> completion A * machine.

Definition ret {A} (a : A) : M A := fun m => (Normal a, m).

Definition throw {A} (e : js_error) : M A := fun m => (Threw e, m).

Definition lift {A} (c : completion A) : M A := fun m => (c, m).

Definition bind {A B} (c : M A) (k : A -> M B) : M B :=
  fun m =>
    match c m with
    | (Normal a, m') => k a m'
    | (Threw e, m') => (Threw e, m')
    end.

Definition try_catch {A} (c : M A) (handler : js_error -> M A) : M A :=
  fun m =>
    match c m with
    | (Normal a, m') => (Normal a, m')
    | (Threw e, m') => handler e m'
    end.

(** [try { c } finally { f }] where [f] neither throws nor returns. *)
Definition try_finally {A} (c : M A) (f : M unit) : M A :=
  fun m =>
    match c m with
    | (r, m') => (r, snd (f m'))
    end.

Declare Scope js_scope.
Delimit Scope js_scope with js.
Notation "x <- c ;; k" := (bind c (fun x => k))
  (at level 61, c at next level, right associativity) : js_scope.
Notation "c ;; k" := (bind c (fun _ => k))
  (at level 61, right associativity) : js_scope.
Local Open Scope js_scope.

Definition log (e : event) : M unit :=
  fun m => (Normal tt, mkMachine (app m) (trace m ++ [e]) (calls m)).

Definition update (f : app_state -> app_state) : M unit :=
  fun m => (Normal tt, mkMachine (f (app m)) (trace m) (calls m)).

Definition setMovieList (l : list json) : M unit :=
  update (fun a => mkApp (searchTerm a) l (errorMessage a) (isLoading a) (selectedMovie a)).

Definition setErrorMessage (msg : string) : M unit :=
  update (fun a => mkApp (searchTerm a) (movieList a) msg (isLoading a) (selectedMovie a)).

Definition setIsLoading (b : bool) : M unit :=
  update (fun a => mkApp (searchTerm a) (movieList a) (errorMessage a) b (selectedMovie a)).

(** [console.error(label, e)] *)
Definition console_error (label : string) (e : js_error) : M unit :=
  log (EvConsoleError label e).

(** [await new Promise(resolve => setTimeout(resolve, ms))] *)
Definition sleep (ms : Z) : M unit := log (EvTimeout ms).

(** ** URL building *)

Definition hex_digit (n : nat) : ascii :=
  match n with
  | 0 => "0" | 1 => "1" | 2 => "2" | 3 => "3" | 4 => "4" | 5 => "5" | 6 => "6"
  | 7 => "7" | 8 => "8" | 9 => "9" | 10 => "A" | 11 => "B" | 12 => "C"
  | 13 => "D" | 14 => "E" | _ => "F"
  end%char%nat.

(** [%XX] for one byte. *)
Definition percent (byte : nat) : string :=
  String "%" (String (hex_digit (byte / 16)) (String (hex_digit (byte mod 16)) EmptyString)).

(** The characters [encodeURIComponent] leaves alone:
    [A-Z a-z 0-9 - _ . ! ~ * ' ( )]. *)
Definition uri_unreserved (c : ascii) : bool :=
  let n := nat_of_ascii c in
  ((65 <=? n) && (n <=? 90) || (97 <=? n) && (n <=? 122) || (48 <=? n) && (n <=? 57)
   || existsb (Nat.eqb n) [45; 95; 46; 33; 126; 42; 39; 40; 41])%nat.

(** [encodeURIComponent] on the strings of this model, whose code units
    are below 256: every other code unit is replaced by the escaped bytes
    of its UTF-8 encoding, one byte below 128 and two from 128 up.  Module
    [Utf16] below gives the function on every text of UTF-16 code units,
    with surrogate pairs, escapes of three and four bytes and its
    [URIError]; [encodeURIComponent16_agrees] shows that it gives this on
    the strings of the model. *)
Fixpoint encodeURIComponent (s : string) : string :=
  match s with
  | EmptyString => EmptyString
  | String c rest =>
      let n := nat_of_ascii c in
      (if uri_unreserved c then String c EmptyString
       else if (n <? 128)%nat then percent n
       else percent (192 + n / 64) ++ percent (128 + n mod 64))
      ++ encodeURIComponent rest
  end.

Definition API_BASE_URL : string := "https://api.themoviedb.org/3".

(** Truthiness of a string used as a condition. *)
Definition nonempty (s : string) : bool := negb (String.eqb s "").

(** The two endpoint templates of [fetchMovies]. *)
Definition endpoint (query : string) (page : Z) : string :=
  if nonempty query
  then API_BASE_URL ++ "/search/movie?query=" ++ encodeURIComponent query
       ++ "&language=en-US&page=" ++ Z_to_string page
  else API_BASE_URL ++ "/discover/movie?sort_by=popularity.desc&language=en-US&page="
       ++ Z_to_string page.

(** ** Turning a raw record into a displayed one *)

(** ToString of a value that may be [undefined]. *)
Definition to_string_opt (v : option json) : completion string :=
  match v with
  | None => Normal "undefined"
  | Some j => to_string j
  end.

(** [p ? `https://image.tmdb.org/t/p/w500${p}` : './No-Poster.png'] *)
Definition poster_url (p : option json) : completion string :=
  if truthy p then
    match to_string_opt p with
    | Normal s => Normal ("https://image.tmdb.org/t/p/w500" ++ s)
    | Threw e => Threw e
    end
  else Normal "./No-Poster.png".

(** [movie => ({ ...movie, poster_path: ... })] *)
Definition transform (movie : json) : completion json :=
  let copied := spread movie in
  match member (Some movie) "poster_path" with
  | Threw e => Threw e
  | Normal p =>
      match poster_url p with
      | Threw e => Threw e
      | Normal url => Normal (JObj (set_prop "poster_path" (JStr url) copied))
      end
  end.

(** [Array.prototype.map] with a callback that may throw. *)
Fixpoint map_throwing {A B} (f : A -> completion B) (l : list A) : completion (list B) :=
  match l with
  | [] => Normal []
  | x :: rest =>
      match f x with
      | Threw e => Threw e
      | Normal y =>
          match map_throwing f rest with
          | Threw e => Threw e
          | Normal ys => Normal (y :: ys)
          end
      end
  end.

(** [results.length === 0], for a truthy [results]. *)
Definition length_is_zero (results : option json) : completion bool :=
  match results with
  | None => Threw (TypeError "Cannot read properties of undefined (reading 'length')")
  | Some JNull => Threw (TypeError "Cannot read properties of null (reading 'length')")
  | Some (JArr elems) => Normal (match elems with [] => true | _ => false end)
  | Some (JStr s) => Normal (String.eqb s "")
  | Some (JObj props) =>
      Normal (match lookup "length" props with
              | Some (JNum r) => String.eqb r "0"
              | _ => false
              end)
  | Some _ => Normal false
  end.

(** [!data.results || data.results.length === 0] *)
Definition no_results (results : option json) : completion bool :=
  if negb (truthy results) then Normal true else length_is_zero results.

(** [...data.results.map(movie => ...)]: only an array has a callable [map];
    for a call that is spread, V8 words the failure as below. *)
Definition map_results (results : option json) : completion (list json) :=
  match results with
  | None => Threw (TypeError "Cannot read properties of undefined (reading 'map')")
  | Some JNull => Threw (TypeError "Cannot read properties of null (reading 'map')")
  | Some (JArr elems) => map_throwing transform elems
  | Some _ =>
      Threw (TypeError
               "data.results.map is not a function or its return value is not iterable")
  end.

(** ** The two functions of [App] *)

(** How the page loop of [fetchMovies] ends: by the [return] on an empty
    first page, or by leaving the loop with the accumulated results. *)
Inductive loop_exit : Type :=
| Returned
| Finished (allResults : list json).

Section App.

(** [import.meta.env.VITE_TMDB_API_KEY]: a string, or [undefined]. *)
Variable API_KEY : option string.

(** The network the component talks to. *)
Variable net : world.

Definition API_OPTIONS : request_options :=
  mkOptions "GET"
    [("accept", "application/json");
     ("Authorization", "Bearer " ++ match API_KEY with Some k => k | None => "undefined" end)].

(** [!API_KEY] *)
Definition key_missing : bool :=
  match API_KEY with
  | None => true
  | Some k => negb (nonempty k)
  end.

(** [await fetch(url, options)] *)
Definition http_fetch (url : string) (options : request_options) : M response :=
  fun m =>
    let m' := mkMachine (app m) (trace m ++ [EvFetch url options]) (S (calls m)) in
    match net (calls m) url with
    | Rejected e => (Threw e, m')
    | Responded r => (Normal r, m')
    end.

(** The body of the [try] in [fetchWithRetry]. *)
Definition attempt (url : string) (options : request_options) : M (option json) :=
  response <- http_fetch url options ;;
  if negb (ok response)
  then throw (Error ("HTTP error! status: " ++ Z_to_string (status response)))
  else body <- lift (json_body response) ;; ret (Some body).

(** The [for (let i = 0; i < retries; i++)] loop, from a given [i]. *)
Equations? retry_from (url : string) (options : request_options)
    (retries delay : Z) (i : Z) : M (option json)
    by wf (Z.to_nat (retries - i)) lt :=
  retry_from url options retries delay i with Z_lt_dec i retries := {
    | left _ =>
        try_catch (attempt url options)
          (fun error =>
             if i =? retries - 1 then throw error
             else sleep delay ;; retry_from url options retries delay (i + 1))
    | right _ => ret undefined }.
Proof. lia. Qed.

Definition fetchWithRetry (url : string) (options : request_options)
    (retries delay : Z) : M (option json) :=
  retry_from url options retries delay 0.

(** The [for (let page = 1; page <= pagesToFetch; page++)] loop, from a
    given [page] and accumulator. *)
Equations? pages_from (query : string) (pagesToFetch : Z) (page : Z)
    (allResults : list json) : M loop_exit
    by wf (Z.to_nat (pagesToFetch + 1 - page)) lt :=
  pages_from query pagesToFetch page allResults with Z_le_dec page pagesToFetch := {
    | left _ =>
        data <- fetchWithRetry (endpoint query page) API_OPTIONS 3 1000 ;;
        results <- lift (member data "results") ;;
        empty <- lift (no_results results) ;;
        if empty : bool then
          if page =? 1 then
            setErrorMessage (if nonempty query then "No movies found for your search"
                             else "No movies available") ;;
            setMovieList [] ;;
            ret Returned
          else ret (Finished allResults)
        else
          mapped <- lift (map_results results) ;;
          pages_from query pagesToFetch (page + 1) (allResults ++ mapped)
    | right _ => ret (Finished allResults) }.
Proof. lia. Qed.

(** The [try] block of [fetchMovies]. *)
Definition fetchMovies_try (query : string) : M unit :=
  let pagesToFetch := if nonempty query then 1 else 2 in
  exit <- pages_from query pagesToFetch 1 [] ;;
  match exit with
  | Returned => ret tt
  | Finished allResults => setMovieList allResults
  end.

(** The message the [catch] block of [fetchMovies] picks. *)
Definition error_text (error : js_error) : string :=
  if includes (err_message error) "401"
  then "Invalid API key. Please check your TMDB API configuration."
  else if includes (err_message error) "429"
  then "Rate limit exceeded. Please try again later."
  else "Error fetching movies. Please try again later.".

(** The [catch] block of [fetchMovies]. *)
Definition fetchMovies_catch (error : js_error) : M unit :=
  console_error "Error fetching movies:" error ;;
  setErrorMessage (error_text error) ;;
  setMovieList [].

Definition fetchMovies (query : string) : M unit :=
  if key_missing then
    setErrorMessage "API key is missing. Please check your configuration." ;;
    setIsLoading false
  else
    setIsLoading true ;;
    setErrorMessage "" ;;
    try_finally (try_catch (fetchMovies_try query) fetchMovies_catch)
                (setIsLoading false).

End App.

(** ** Facts about the retry loop *)

(** What one pass through the [try] of [fetchWithRetry] makes of the
    network's answer. *)
Definition outcome (r : net_result) : completion (option json) :=
  match r with
  | Rejected e => Threw e
  | Responded resp =>
      if negb (ok resp)
      then Threw (Error ("HTTP error! status: " ++ Z_to_string (status resp)))
      else match json_body resp with
           | Normal body => Normal (Some body)
           | Threw e => Threw e
           end
  end.

(** The machine once a request has gone out, and once a timer has run. *)
Definition after_fetch (url : string) (options : request_options) (m : machine) : machine :=
  mkMachine (app m) (trace m ++ [EvFetch url options]) (S (calls m)).

Definition after_sleep (ms : Z) (m : machine) : machine :=
  mkMachine (app m) (trace m ++ [EvTimeout ms]) (calls m).

(** The URLs requested in a trace, in order. *)
Definition fetched (t : list event) : list string :=
  flat_map (fun e => match e with EvFetch url _ => [url] | _ => [] end) t.

(** The timer delays in a trace, in order. *)
Definition delays (t : list event) : list Z :=
  flat_map (fun e => match e with EvTimeout ms => [ms] | _ => [] end) t.

(** The machine once [fetchMovies] has passed the credential check:
    [setIsLoading(true); setErrorMessage('')]. *)
Definition loading (m : machine) : machine :=
  mkMachine
    (mkApp (searchTerm (app m)) (movieList (app m)) "" true (selectedMovie (app m)))
    (trace m) (calls m).

(** The machine after [setErrorMessage(msg); setMovieList([])]. *)
Definition refused (msg : string) (m : machine) : machine :=
  mkMachine
    (mkApp (searchTerm (app m)) [] msg (isLoading (app m)) (selectedMovie (app m)))
    (trace m) (calls m).

(** The machine after [setIsLoading(false)]. *)
Definition settled (m : machine) : machine :=
  mkMachine
    (mkApp (searchTerm (app m)) (movieList (app m)) (errorMessage (app m)) false
           (selectedMovie (app m)))
    (trace m) (calls m).

(** The machine after the [console.error] of the [catch] block. *)
Definition complained (e : js_error) (m : machine) : machine :=
  mkMachine (app m) (trace m ++ [EvConsoleError "Error fetching movies:" e]) (calls m).

(** The machine after [setMovieList(allResults)]. *)
Definition showing (allResults : list json) (m : machine) : machine :=
  mkMachine
    (mkApp (searchTerm (app m)) allResults (errorMessage (app m)) (isLoading (app m))
           (selectedMovie (app m)))
    (trace m) (calls m).

(** What the page loop makes of one page's parsed body: the three ways the
    statements between [fetchWithRetry] and the end of the loop body go. *)
Inductive page_verdict : Type :=
| NoRecords
| Records (shown : list json)
| Faulty (e : js_error).

Definition examine (data : option json) : page_verdict :=
  match member data "results" with
  | Threw e => Faulty e
  | Normal results =>
      match no_results results with
      | Threw e => Faulty e
      | Normal true => NoRecords
      | Normal false =>
          match map_results results with
          | Threw e => Faulty e
          | Normal shown => Records shown
          end
      end
  end.

(** The page lookup of the loop body: [fetchWithRetry(endpoint, API_OPTIONS)]
    with the default budget of three attempts a second apart. *)
Definition lookup_page (API_KEY : option string) (net : world) (query : string)
    (page : Z) : M (option json) :=
  fetchWithRetry net (endpoint query page) (API_OPTIONS API_KEY) 3 1000.

(** A body whose result set is empty, as the loop tests it. *)
Definition empty_page (data : option json) : Prop :=
  exists results, member data "results" = Normal results /\ no_results results = Normal true.

(** A body whose [results] is the non-empty array [records]. *)
Definition page_with (data : option json) (records : list json) : Prop :=
  member data "results" = Normal (Some (JArr records)) /\ records <> [].

(** The other handlers of [App] that write its state. *)
Definition setSearchTerm (text : string) : M unit :=
  update (fun a => mkApp text (movieList a) (errorMessage a) (isLoading a) (selectedMovie a)).

Definition setSelectedMovie (sel : option json) : M unit :=
  update (fun a => mkApp (searchTerm a) (movieList a) (errorMessage a) (isLoading a) sel).

Definition handleMovieClick (movie : json) : M unit := setSelectedMovie (Some movie).

Definition closeModal : M unit := setSelectedMovie (Some JNull).


(** Every message [fetchMovies] can leave in [errorMessage]. *)
Definition error_messages : list string :=
  [ "API key is missing. Please check your configuration.";
    "No movies found for your search";
    "No movies available";
    "Invalid API key. Please check your TMDB API configuration.";
    "Rate limit exceeded. Please try again later.";
    "Error fetching movies. Please try again later." ].

(** The properties of a list under every name but [k]. *)
Definition others (k : string) (props : list (string * json)) : list (string * json) :=
  filter (fun kv => negb (String.eqb k (fst kv))) props.

(** Substring containment, as a proposition. *)
Definition contains (s sub : string) : Prop :=
  exists before after, s = before ++ sub ++ after.

(** ** Sample data *)

Definition sample_movie : json :=
  JObj [("id", JNum "550"); ("title", JStr "Fight Club");
        ("overview", JStr "An insomniac office worker."); ("poster_path", JStr "/abc.jpg");
        ("vote_average", JNum "8.4")].

Definition bare_movie : json :=
  JObj [("id", JNum "13"); ("title", JStr "Forrest Gump"); ("poster_path", JNull)].

Definition body_of (records : list json) : json :=
  JObj [("page", JNum "1"); ("results", JArr records)].

Definition served (records : list json) : net_result :=
  Responded (mkResponse true 200 (Normal (body_of records))).

Definition refusal (code : Z) : net_result :=
  Responded (mkResponse false code (Normal JNull)).

(** The double quote character, for messages that quote their input. *)
Definition dquote : string := String (ascii_of_nat 34) EmptyString.

(** What V8 reports when [json()] meets the twelve-character body
    [HTTP 429/401]. *)
Definition garbled_error : js_error :=
  mkError "SyntaxError"
    ("Unexpected token 'H', " ++ dquote ++ "HTTP 429/401" ++ dquote ++ " is not valid JSON").

(** A network whose every answer has status 200 and that unparsable body. *)
Definition garbled : world :=
  fun _ _ => Responded (mkResponse true 200 (Threw garbled_error)).

(** A network with nothing to show. *)
Definition barren : world := fun _ _ => served [].

(** A network whose catalogue ends after its first page of two records. *)
Definition short_catalogue : world :=
  fun _ url =>
    if String.eqb url (endpoint "" 1) then served [sample_movie; bare_movie] else served [].

(** Twenty records, numbered from [first]. *)
Definition twenty (first : nat) : list json :=
  map (fun i => JObj [("id", JNum (nat_to_string i));
                      ("title", JStr ("Movie " ++ nat_to_string i));
                      ("poster_path", JStr ("/" ++ nat_to_string i ++ ".jpg"))])
      (seq first 20).

(** A network that serves twenty records on each of the first two pages. *)
Definition full_catalogue : world :=
  fun _ url =>
    if String.eqb url (endpoint "" 1) then served (twenty 1) else served (twenty 21).

(** A network that answers every call with the same one-record page. *)
Definition steady : world := fun _ _ => served [sample_movie].

(** A network that fails once and then answers. *)
Definition hiccup : world :=
  fun k _ =>
    match k with
    | 0%nat => refusal 502
    | _ => served [sample_movie]
    end.

(** A network that fails twice, in two different ways, and then answers. *)
Definition flaky : world :=
  fun k _ =>
    match k with
    | 0%nat => Rejected (TypeError "Failed to fetch")
    | 1%nat => refusal 503
    | _ => served [sample_movie]
    end.

(** A network that fails every call, each time with another status. *)
Definition down : world :=
  fun k _ => refusal (500 + Z.of_nat k).

(** ** The retry loop, told by its attempts *)

(** How many requests the loop makes when [budget] attempts are left and
    the next call is the [k]-th: it stops at the first attempt that
    succeeds, or at the last one allowed. *)
Fixpoint attempts_needed (net : world) (url : string) (k budget : nat) : nat :=
  match budget with
  | O => O
  | S rest =>
      match outcome (net k url), rest with
      | Normal _, _ => 1
      | Threw _, O => 1
      | Threw _, S _ => S (attempts_needed net url (S k) rest)
      end
  end.

(** What [k] further rounds add to the trace: a timer, then a request. *)
Fixpoint retries_after (url : string) (options : request_options) (delay : Z)
    (k : nat) : list event :=
  match k with
  | O => []
  | S k' => EvTimeout delay :: EvFetch url options :: retries_after url options delay k'
  end.

(** The trace of [n] attempts. *)
Definition retry_trace (url : string) (options : request_options) (delay : Z)
    (n : nat) : list event :=
  match n with
  | O => []
  | S k => EvFetch url options :: retries_after url options delay k
  end.

(** The errors written to the console in a trace, in order. *)
Definition complaints (t : list event) : list js_error :=
  flat_map (fun e => match e with EvConsoleError _ err => [err] | _ => [] end) t.

(** The requests of a trace with their options. *)
Definition requests (t : list event) : list (string * request_options) :=
  flat_map (fun e => match e with EvFetch url o => [(url, o)] | _ => [] end) t.


(** The message of the error [fetchWithRetry] throws for a response that is
    not [ok]. *)
Definition status_message (code : Z) : string :=
  "HTTP error! status: " ++ Z_to_string code.

(** Whether substring matching on the message of a status error agrees with
    comparing the status itself, for both codes the handler looks for. *)
Definition code_matching_agrees (n : nat) : bool :=
  Bool.eqb (includes (status_message (Z.of_nat n)) "401") (Z.of_nat n =? 401) &&
  Bool.eqb (includes (status_message (Z.of_nat n)) "429") (Z.of_nat n =? 429).

(** ** The encoding, one character at a time *)

(** What [encodeURIComponent] writes for one code unit. *)
Definition escape_unit (c : ascii) : string :=
  let n := nat_of_ascii c in
  if uri_unreserved c then String c EmptyString
  else if (n <? 128)%nat then percent n
  else percent (192 + n / 64) ++ percent (128 + n mod 64).

(** The characters an encoded component can hold. *)
Definition uri_safe (c : ascii) : bool :=
  uri_unreserved c || Ascii.eqb c "%".

(** The characters that structure an address or its query string. *)
Definition uri_delimiter (c : ascii) : bool :=
  existsb (Ascii.eqb c) ["&"; "="; "?"; "#"; "/"; "+"; " "]%char.

Fixpoint string_all (p : ascii -> bool) (s : string) : bool :=
  match s with
  | EmptyString => true
  | String c rest => p c && string_all p rest
  end.

Definition hex_value (c : ascii) : option nat :=
  let n := nat_of_ascii c in
  if ((48 <=? n) && (n <=? 57))%nat then Some (n - 48)%nat
  else if ((65 <=? n) && (n <=? 70))%nat then Some (n - 55)%nat
  else None.

(** Reads [%XX] at the head of a string. *)
Definition read_escape (s : string) : option (nat * string) :=
  match s with
  | String "%" (String hi (String lo rest)) =>
      match hex_value hi, hex_value lo with
      | Some h, Some l => Some (16 * h + l, rest)%nat
      | _, _ => None
      end
  | _ => None
  end.

(** ** What [App] renders *)

(** The element [App] returns for the movies section, as data.  A grid
    cell is the [key] of the card's wrapper with the record passed to
    [MovieCard] as its [movie] prop.  [Spinner] and [MovieCard] are
    components of other files: what they render, and what React then does
    with the elements, is not part of this model. *)
Inductive section_body : Type :=
| Spinner
| ErrorLine (msg : string)
| Grid (cells : list (option string * json)).

(** The key of an element: none for [undefined], otherwise the value
    turned into a string when the element is created, which throws for an
    object that cannot be converted. *)
Definition element_key (v : option json) : completion (option string) :=
  match v with
  | None => Normal None
  | Some j =>
      match to_string j with
      | Normal s => Normal (Some s)
      | Threw e => Threw e
      end
  end.

(** [movieList.map(movie => <div key={movie.id} ...>)] *)
Definition grid_cells (l : list json) : completion (list (option string * json)) :=
  map_throwing
    (fun movie =>
       match member (Some movie) "id" with
       | Threw e => Threw e
       | Normal id =>
           match element_key id with
           | Normal key => Normal (key, movie)
           | Threw e => Threw e
           end
       end) l.

(** [isLoading ? <Spinner/> : errorMessage ? <p>...</p> : <div>...</div>] *)
Definition movies_section (a : app_state) : completion section_body :=
  if isLoading a then Normal Spinner
  else if nonempty (errorMessage a) then Normal (ErrorLine (errorMessage a))
  else
    match grid_cells (movieList a) with
    | Normal cells => Normal (Grid cells)
    | Threw e => Threw e
    end.

(** The text of the [h2] above the section. *)
Definition heading (a : app_state) : string :=
  if nonempty (searchTerm a)
  then "Search Results for " ++ dquote ++ searchTerm a ++ dquote
  else "Popular Movies".

(** The two children of the modal that come from the selected record, as
    the values [App] puts into the elements it returns.  Which values React
    accepts as children is not part of this model. *)
Record modal_view : Type := mkModal {
  modal_title : option json;
  modal_story : option json
}.

(** [selectedMovie && (...)]: the modal, or the falsy value itself. *)
Inductive modal_slot : Type :=
| NoModal (leftover : option json)
| Modal (view : modal_view).

Definition modal (a : app_state) : completion modal_slot :=
  if truthy (selectedMovie a) then
    match member (selectedMovie a) "title" with
    | Threw e => Threw e
    | Normal title =>
        match member (selectedMovie a) "overview" with
        | Threw e => Threw e
        | Normal overview =>
            Normal (Modal (mkModal title
                             (if truthy overview then overview
                              else Some (JStr "No story available for this movie."))))
        end
    end
  else Normal (NoModal (selectedMovie a)).

(** ** The search box of [components/Search.jsx] *)

(** A prop is a value or a callback taking the typed text. *)
Inductive prop_value : Type :=
| PData (v : json)
| PCallback (f : string -> M unit).

Fixpoint prop_lookup (name : string) (props : list (string * prop_value))
  : option prop_value :=
  match props with
  | [] => None
  | (name', v) :: rest => if String.eqb name name' then Some v else prop_lookup name rest
  end.

(** What [Search] hands to its [input]. *)
Record search_box : Type := mkBox {
  box_placeholder : string;
  box_value : option prop_value;
  box_onChange : string -> M unit
}.

(** [({searchterm, setSearchTerm}) => <input value={searchterm}
    onChange={(event) => setSearchTerm(event.target.value)} />] *)
Definition Search (props : list (string * prop_value)) : search_box :=
  mkBox "Search through thousand of movies"
    (prop_lookup "searchterm" props)
    (fun value =>
       match prop_lookup "setSearchTerm" props with
       | Some (PCallback f) => f value
       | _ => throw (TypeError "setSearchTerm is not a function")
       end).

(** [<Search searchTerm={searchTerm} setSearchTerm={setSearchTerm} />] *)
Definition App_search (a : app_state) : search_box :=
  Search [("searchTerm", PData (JStr (searchTerm a)));
          ("setSearchTerm", PCallback setSearchTerm)].

(** [useEffect(() => { fetchMovies(searchTerm) }, [searchTerm])]: the body
    of the effect. *)
Definition search_effect (API_KEY : option string) (net : world) : M unit :=
  fun m => fetchMovies API_KEY net (searchTerm (app m)) m.

(** A change of the box's text: the handler runs, and the effect after it
    if the search term is no longer the same. *)
Definition type_text (API_KEY : option string) (net : world) (text : string) : M unit :=
  fun m =>
    match box_onChange (App_search (app m)) text m with
    | (Threw e, m') => (Threw e, m')
    | (Normal _, m') =>
        if String.eqb (searchTerm (app m')) (searchTerm (app m))
        then (Normal tt, m')
        else search_effect API_KEY net m'
    end.


(** The machine after [setSearchTerm(text)]. *)
Definition typed (text : string) (m : machine) : machine :=
  mkMachine
    (mkApp text (movieList (app m)) (errorMessage (app m)) (isLoading (app m))
           (selectedMovie (app m)))
    (trace m) (calls m).

(** The errors the handling of a fetched body can raise by itself. *)
Definition internal_errors : list js_error :=
  [ TypeError "Cannot read properties of undefined (reading 'results')";
    TypeError "Cannot read properties of null (reading 'results')";
    TypeError "data.results.map is not a function or its return value is not iterable";
    TypeError "Cannot read properties of null (reading 'poster_path')";
    TypeError "Cannot convert object to primitive value" ].

(** A network whose first page is served and whose second page is down. *)
Definition second_page_down : world :=
  fun _ url =>
    if String.eqb url (endpoint "" 1) then served [sample_movie] else refusal 503.

(** A network that answers with the JSON text [null]. *)
Definition null_body : world :=
  fun _ _ => Responded (mkResponse true 200 (Normal JNull)).

(** A network whose second page has a string where the records should
    be. *)
Definition odd_second_page : world :=
  fun _ url =>
    if String.eqb url (endpoint "" 1) then served [sample_movie]
    else Responded (mkResponse true 200 (Normal (JObj [("results", JStr "none")]))).

(** A network whose page holds a [null] among its records. *)
Definition null_record : world := fun _ _ => served [sample_movie; JNull].

(** ** Runs that overlap

    An [async] function runs until its next [await] and is then suspended;
    other code runs before it is resumed.  A [task] is what is left of a
    call at such a point: nothing, once it is settled, or what it does when
    resumed.  The functions of [App] are given a second time, on tasks,
    with every [await] of the source as a point of suspension; run alone
    they do what the functions above do. *)

Module Async.

Inductive task (A : Type) : Type :=
| Settled (r : completion A)
| Pending (next : machine -> task A) (write : machine -> machine).
Arguments Settled {A} r.
Arguments Pending {A} next write.

(** A call: what it does at once, and the task it leaves. *)
Definition async (A : Type) : Type := machine -> task A * machine.


Definition ret {A} (a : A) : async A := fun m => (Settled (Normal a), m).

Definition throw {A} (e : js_error) : async A := fun m => (Settled (Threw e), m).

Definition lift {A} (c : completion A) : async A := fun m => (Settled c, m).

(** Code without an [await]. *)
Definition now {A} (c : M A) : async A :=
  fun m => match c m with (r, m') => (Settled r, m') end.

Fixpoint bind_task {A B} (t : task A) (k : A -> async B) (m : machine)
  : task B * machine :=
  match t with
  | Settled (Normal a) => k a m
  | Settled (Threw e) => (Settled (Threw e), m)
  | Pending next write =>
      (Pending (fun m' => fst (bind_task (next m') k (write m')))
               (fun m' => snd (bind_task (next m') k (write m'))),
       m)
  end.

Definition bind {A B} (c : async A) (k : A -> async B) : async B :=
  fun m => match c m with (t, m') => bind_task t k m' end.

Fixpoint catch_task {A} (t : task A) (handler : js_error -> async A) (m : machine)
  : task A * machine :=
  match t with
  | Settled (Normal a) => (Settled (Normal a), m)
  | Settled (Threw e) => handler e m
  | Pending next write =>
      (Pending (fun m' => fst (catch_task (next m') handler (write m')))
               (fun m' => snd (catch_task (next m') handler (write m'))),
       m)
  end.

Definition try_catch {A} (c : async A) (handler : js_error -> async A) : async A :=
  fun m => match c m with (t, m') => catch_task t handler m' end.

(** [try { c } finally { f }] where [f] has no [await] and neither throws
    nor returns. *)
Fixpoint finally_task {A} (t : task A) (f : M unit) (m : machine) : task A * machine :=
  match t with
  | Settled r => (Settled r, snd (f m))
  | Pending next write =>
      (Pending (fun m' => fst (finally_task (next m') f (write m')))
               (fun m' => snd (finally_task (next m') f (write m'))),
       m)
  end.

Definition try_finally {A} (c : async A) (f : M unit) : async A :=
  fun m => match c m with (t, m') => finally_task t f m' end.

(** [await p] for a promise that settles with [c]. *)
Definition await {A} (c : completion A) : async A :=
  fun m => (Pending (fun _ => Settled c) (fun m' => m'), m).

(** A task that settles one turn after [t] does. *)
Fixpoint later {A} (t : task A) : task A :=
  match t with
  | Settled r => Pending (fun _ => Settled r) (fun m => m)
  | Pending next write => Pending (fun m => later (next m)) write
  end.

(** [await f(...)] for an [async] function [f]: the caller goes on one turn
    after the call has settled. *)
Definition await_call {A} (c : async A) : async A :=
  fun m => match c m with (t, m') => (later t, m') end.

Declare Scope async_scope.
Delimit Scope async_scope with async.
Notation "x <- c ;; k" := (bind c (fun x => k))
  (at level 61, c at next level, right associativity) : async_scope.
Notation "c ;; k" := (bind c (fun _ => k))
  (at level 61, right associativity) : async_scope.
Local Open Scope async_scope.

Section App.

Variable API_KEY : option string.
Variable net : world.

(** [await fetch(url, options)]: the request goes out at once and is
    counted; its answer comes at the next turn. *)
Definition http_fetch (url : string) (options : request_options) : async response :=
  fun m =>
    (Pending
       (fun _ =>
          Settled match net (calls m) url with
                  | Rejected e => Threw e
                  | Responded r => Normal r
                  end)
       (fun m' => m'),
     after_fetch url options m).

(** [await new Promise(resolve => setTimeout(resolve, ms))] *)
Definition sleep (ms : Z) : async unit :=
  fun m => (Pending (fun _ => Settled (Normal tt)) (fun m' => m'), after_sleep ms m).

(** The body of the [try] in [fetchWithRetry]. *)
Definition attempt (url : string) (options : request_options) : async (option json) :=
  response <- http_fetch url options ;;
  if negb (ok response)
  then throw (Error ("HTTP error! status: " ++ Z_to_string (status response)))
  else body <- await (json_body response) ;; ret (Some body).

Equations? retry_from (url : string) (options : request_options)
    (retries delay : Z) (i : Z) : async (option json)
    by wf (Z.to_nat (retries - i)) lt :=
  retry_from url options retries delay i with Z_lt_dec i retries := {
    | left _ =>
        try_catch (attempt url options)
          (fun error =>
             if i =? retries - 1 then throw error
             else sleep delay ;; retry_from url options retries delay (i + 1))
    | right _ => ret undefined }.
Proof. lia. Qed.

Definition fetchWithRetry (url : string) (options : request_options)
    (retries delay : Z) : async (option json) :=
  retry_from url options retries delay 0.

Equations? pages_from (query : string) (pagesToFetch : Z) (page : Z)
    (allResults : list json) : async loop_exit
    by wf (Z.to_nat (pagesToFetch + 1 - page)) lt :=
  pages_from query pagesToFetch page allResults with Z_le_dec page pagesToFetch := {
    | left _ =>
        data <- await_call (fetchWithRetry (endpoint query page) (API_OPTIONS API_KEY) 3 1000) ;;
        results <- lift (member data "results") ;;
        empty <- lift (no_results results) ;;
        if empty : bool then
          if page =? 1 then
            now (setErrorMessage (if nonempty query then "No movies found for your search"
                                  else "No movies available")) ;;
            now (setMovieList []) ;;
            ret Returned
          else ret (Finished allResults)
        else
          mapped <- lift (map_results results) ;;
          pages_from query pagesToFetch (page + 1) (allResults ++ mapped)
    | right _ => ret (Finished allResults) }.
Proof. lia. Qed.

Definition fetchMovies_try (query : string) : async unit :=
  let pagesToFetch := if nonempty query then 1 else 2 in
  exit <- pages_from query pagesToFetch 1 [] ;;
  match exit with
  | Returned => ret tt
  | Finished allResults => now (setMovieList allResults)
  end.

Definition fetchMovies_catch (error : js_error) : async unit :=
  now (console_error "Error fetching movies:" error) ;;
  now (setErrorMessage (error_text error)) ;;
  now (setMovieList []).

Definition fetchMovies (query : string) : async unit :=
  if key_missing API_KEY then
    now (setErrorMessage "API key is missing. Please check your configuration.") ;;
    now (setIsLoading false)
  else
    now (setIsLoading true) ;;
    now (setErrorMessage "") ;;
    try_finally (try_catch (fetchMovies_try query) fetchMovies_catch)
                (setIsLoading false).

End App.

(** A task run to its end with nothing in between. *)
Fixpoint run_alone {A} (t : task A) (m : machine) : completion A * machine :=
  match t with
  | Settled r => (r, m)
  | Pending next write => run_alone (next m) (write m)
  end.

Definition run {A} (c : async A) : M A :=
  fun m => match c m with (t, m') => run_alone t m' end.



End Async.



(** ** Text beyond the model's strings

    The strings above hold code units below 256.  Here a text is any list
    of UTF-16 code units, and [encodeURIComponent] and the endpoint
    template are given in full: surrogate pairs, escapes of up to four
    bytes, and the [URIError] for a lone surrogate.  On the strings above
    they give what the definitions above give. *)

Module Utf16.

Local Open Scope N_scope.

(** The code units of a string of the model. *)
Fixpoint units (s : string) : list N :=
  match s with
  | EmptyString => []
  | String c rest => N.of_nat (nat_of_ascii c) :: units rest
  end.

Definition URIError : js_error := mkError "URIError" "URI malformed".

(** The UTF-8 bytes of a code point. *)
Definition utf8 (cp : N) : list N :=
  if cp <? 128 then [cp]
  else if cp <? 2048 then [192 + cp / 64; 128 + cp mod 64]
  else if cp <? 65536 then
    [224 + cp / 4096; 128 + (cp / 64) mod 64; 128 + cp mod 64]
  else
    [240 + cp / 262144; 128 + (cp / 4096) mod 64; 128 + (cp / 64) mod 64;
     128 + cp mod 64].

Fixpoint escape_bytes (bytes : list N) : string :=
  match bytes with
  | [] => EmptyString
  | b :: rest => (percent (N.to_nat b) ++ escape_bytes rest)%string
  end.

Definition unreserved (cp : N) : bool :=
  (cp <? 128) && uri_unreserved (ascii_of_N cp).

(** What is written for one code point. *)
Definition escape_point (cp : N) : string :=
  if unreserved cp then String (ascii_of_N cp) EmptyString
  else escape_bytes (utf8 cp).

(** The code point of a surrogate pair. *)
Definition pair_point (hi lo : N) : N :=
  65536 + (hi - 55296) * 1024 + (lo - 56320).

Fixpoint encodeURIComponent (text : list N) : completion string :=
  match text with
  | [] => Normal EmptyString
  | u :: rest =>
      if (u <? 55296) || (57343 <? u) then
        match encodeURIComponent rest with
        | Normal s => Normal (escape_point u ++ s)%string
        | Threw e => Threw e
        end
      else if u <? 56320 then
        match rest with
        | lo :: rest' =>
            if (56320 <=? lo) && (lo <=? 57343) then
              match encodeURIComponent rest' with
              | Normal s => Normal (escape_point (pair_point u lo) ++ s)%string
              | Threw e => Threw e
              end
            else Threw URIError
        | [] => Threw URIError
        end
      else Threw URIError
  end.

(** The endpoint template of [fetchMovies] for any query text. *)
Definition endpoint (query : list N) (page : Z) : completion string :=
  match query with
  | [] =>
      Normal (API_BASE_URL
              ++ "/discover/movie?sort_by=popularity.desc&language=en-US&page="
              ++ Z_to_string page)%string
  | _ :: _ =>
      match encodeURIComponent query with
      | Normal encoded =>
          Normal (API_BASE_URL ++ "/search/movie?query=" ++ encoded
                  ++ "&language=en-US&page=" ++ Z_to_string page)%string
      | Threw e => Threw e
      end
  end.

(** The code units that stand for a code point: itself, or a pair. *)
Definition group (cp : N) : list N :=
  if cp <? 65536 then [cp]
  else [55296 + (cp - 65536) / 1024; 56320 + (cp - 65536) mod 1024].

(** Reads [%XX] at the head of a string, as a number. *)
Definition read_byte (s : string) : option (N * string) :=
  match read_escape s with
  | Some (b, rest) => Some (N.of_nat b, rest)
  | None => None
  end.

(** Reads the rest of an escaped code point whose first byte is [b1]. *)
Definition decode_escaped (b1 : N) (r1 : string) : option (list N * string) :=
  if b1 <? 128 then Some (group b1, r1)
  else
    match read_byte r1 with
    | None => None
    | Some (b2, r2) =>
        if b1 <? 224 then Some (group ((b1 - 192) * 64 + (b2 - 128)), r2)
        else
          match read_byte r2 with
          | None => None
          | Some (b3, r3) =>
              if b1 <? 240 then
                Some (group ((b1 - 224) * 4096 + (b2 - 128) * 64 + (b3 - 128)), r3)
              else
                match read_byte r3 with
                | None => None
                | Some (b4, r4) =>
                    Some (group ((b1 - 240) * 262144 + (b2 - 128) * 4096
                                 + (b3 - 128) * 64 + (b4 - 128)), r4)
                end
          end
    end.

(** Reads back the code units of the first code point of an encoded
    string: the partial inverse of [escape_point], used to show that the
    encoding loses nothing. *)
Definition decode_first (s : string) : option (list N * string) :=
  match s with
  | EmptyString => None
  | String c rest =>
      if uri_unreserved c then Some ([N.of_nat (nat_of_ascii c)], rest)
      else
        match read_byte s with
        | None => None
        | Some (b1, r1) => decode_escaped b1 r1
        end
  end.

End Utf16.

(** ** The parameters of an address *)

(** The text after the first [?]. *)
Fixpoint after_question (s : string) : string :=
  match s with
  | EmptyString => EmptyString
  | String c rest => if Ascii.eqb c "?" then rest else after_question rest
  end.

(** A string cut at every [&]. *)
Fixpoint split_amp (s : string) : list string :=
  match s with
  | EmptyString => [EmptyString]
  | String c rest =>
      if Ascii.eqb c "&" then EmptyString :: split_amp rest
      else
        match split_amp rest with
        | first :: others => String c first :: others
        | [] => [String c EmptyString]
        end
  end.

(** The parameters a server reads off an address. *)
Definition parameters (url : string) : list string := split_amp (after_question url).

Ltac run :=
  unfold bind, try_catch, try_finally, ret, throw, lift, sleep, console_error,
         log, handleMovieClick, closeModal, setSelectedMovie, setSearchTerm,
         setMovieList, setErrorMessage, setIsLoading, update; simpl.

Section RetryFacts.

Variable net : world.
Variables (url : string) (options : request_options) (retries delay : Z).

Lemma attempt_outcome m :
  attempt net url options m = (outcome (net (calls m) url), after_fetch url options m).
Proof.
  unfold attempt, http_fetch, outcome, after_fetch. run.
  destruct (net (calls m) url) as [e | resp]; [reflexivity |].
  destruct (ok resp); simpl; [| reflexivity].
  destruct (json_body resp); reflexivity.
Qed.

Lemma retry_from_step i :
  retry_from net url options retries delay i =
  if Z_lt_dec i retries then
    try_catch (attempt net url options)
      (fun error =>
         if i =? retries - 1 then throw error
         else sleep delay ;; retry_from net url options retries delay (i + 1))
  else ret undefined.
Proof.
  rewrite retry_from_unfold_eq. unfold retry_from_unfold.
  destruct (Z_lt_dec i retries); reflexivity.
Qed.

(** The loop condition fails: nothing happens, the function falls off its
    end. *)
Lemma retry_from_done i m :
  retries <= i -> retry_from net url options retries delay i m = (Normal undefined, m).
Proof.
  intros Hi. rewrite retry_from_step.
  destruct (Z_lt_dec i retries); [lia | reflexivity].
Qed.

(** A successful attempt ends the loop at once. *)
Lemma retry_from_success i m v :
  i < retries ->
  outcome (net (calls m) url) = Normal v ->
  retry_from net url options retries delay i m = (Normal v, after_fetch url options m).
Proof.
  intros Hi Hv. rewrite retry_from_step.
  destruct (Z_lt_dec i retries); [| lia].
  unfold try_catch. rewrite attempt_outcome, Hv. reflexivity.
Qed.

(** A failed last attempt rethrows what it caught. *)
Lemma retry_from_last i m e :
  i = retries - 1 ->
  outcome (net (calls m) url) = Threw e ->
  retry_from net url options retries delay i m = (Threw e, after_fetch url options m).
Proof.
  intros Hi He. rewrite retry_from_step.
  destruct (Z_lt_dec i retries); [| lia].
  unfold try_catch. rewrite attempt_outcome, He.
  replace (i =? retries - 1) with true by (symmetry; apply Z.eqb_eq; exact Hi).
  reflexivity.
Qed.

(** A failed earlier attempt sleeps and goes round again. *)
Lemma retry_from_again i m e :
  i < retries - 1 ->
  outcome (net (calls m) url) = Threw e ->
  retry_from net url options retries delay i m =
  retry_from net url options retries delay (i + 1)
    (after_sleep delay (after_fetch url options m)).
Proof.
  intros Hi He. rewrite retry_from_step.
  destruct (Z_lt_dec i retries); [| lia].
  unfold try_catch. rewrite attempt_outcome, He.
  replace (i =? retries - 1) with false by (symmetry; apply Z.eqb_neq; lia).
  reflexivity.
Qed.

End RetryFacts.

(** ** Facts about the page loop *)

Section PageFacts.

Variable API_KEY : option string.
Variable net : world.
Variables (query : string) (pagesToFetch : Z).

(** One turn of the loop, by what the page lookup and [examine] give. *)
Lemma pages_from_turn page allResults m :
  page <= pagesToFetch ->
  pages_from API_KEY net query pagesToFetch page allResults m =
  match lookup_page API_KEY net query page m with
  | (Threw e, m') => (Threw e, m')
  | (Normal data, m') =>
      match examine data with
      | Faulty e => (Threw e, m')
      | NoRecords =>
          if page =? 1
          then (Normal Returned,
                refused (if nonempty query then "No movies found for your search"
                         else "No movies available") m')
          else (Normal (Finished allResults), m')
      | Records shown =>
          pages_from API_KEY net query pagesToFetch (page + 1) (allResults ++ shown) m'
      end
  end.
Proof.
  intros Hle. rewrite pages_from_unfold_eq. unfold pages_from_unfold.
  destruct (Z_le_dec page pagesToFetch); [| lia].
  unfold lookup_page, examine. simpl. unfold bind at 1.
  destruct (fetchWithRetry _ _ _ _ _ m) as [[data | e] m']; [| reflexivity].
  unfold bind at 1, lift at 1.
  destruct (member data "results") as [results | e]; [| reflexivity].
  unfold bind at 1, lift at 1.
  destruct (no_results results) as [[|] | e]; [| | reflexivity].
  - destruct (page =? 1); reflexivity.
  - unfold bind at 1, lift at 1.
    destruct (map_results results) as [shown | e]; reflexivity.
Qed.

Lemma pages_from_over page allResults m :
  pagesToFetch < page ->
  pages_from API_KEY net query pagesToFetch page allResults m =
  (Normal (Finished allResults), m).
Proof.
  intros Hlt. rewrite pages_from_unfold_eq. unfold pages_from_unfold.
  destruct (Z_le_dec page pagesToFetch); [lia | reflexivity].
Qed.

End PageFacts.

(** ** What a page lookup does to the machine *)

Section RetryShape.

Variable net : world.
Variables (url : string) (options : request_options) (retries delay : Z).

Lemma fetched_app t1 t2 : fetched (t1 ++ t2) = (fetched t1 ++ fetched t2)%list.
Proof. unfold fetched. apply flat_map_app. Qed.

Lemma delays_app t1 t2 : delays (t1 ++ t2) = (delays t1 ++ delays t2)%list.
Proof. unfold delays. apply flat_map_app. Qed.

(** Whatever the network does, the loop from [i] makes between one and
    [retries - i] requests, all to [url], sleeps [delay] between two
    requests and never after the last, and leaves the component's state
    alone. *)
Lemma retry_from_shape i m :
  exists n evs,
    (n <= Z.to_nat (retries - i))%nat /\
    (i < retries -> (1 <= n)%nat) /\
    app (snd (retry_from net url options retries delay i m)) = app m /\
    calls (snd (retry_from net url options retries delay i m)) = (calls m + n)%nat /\
    trace (snd (retry_from net url options retries delay i m)) = (trace m ++ evs)%list /\
    fetched evs = repeat url n /\
    delays evs = repeat delay (n - 1).
Proof.
  remember (Z.to_nat (retries - i)) as k eqn:Hk.
  revert i m Hk. induction k as [| k IH]; intros i m Hk.
  - exists 0%nat, []. rewrite retry_from_done by lia. simpl.
    rewrite app_nil_r. repeat split; lia.
  - assert (Hi : i < retries) by lia.
    destruct (outcome (net (calls m) url)) as [v | e] eqn:Hout.
    + exists 1%nat, [EvFetch url options].
      rewrite (retry_from_success net url options retries delay i m v Hi Hout).
      simpl. repeat split; try lia; reflexivity.
    + destruct (Z.eq_dec i (retries - 1)) as [Hlast | Hmore].
      * exists 1%nat, [EvFetch url options].
        rewrite (retry_from_last net url options retries delay i m e Hlast Hout).
        simpl. repeat split; try lia; reflexivity.
      * rewrite (retry_from_again net url options retries delay i m e) by (lia || exact Hout).
        destruct (IH (i + 1) (after_sleep delay (after_fetch url options m)))
          as (n & evs & Hn & Hpos & Happ & Hcalls & Htrace & Hfetched & Hdelays);
          [lia |].
        exists (S n), (EvFetch url options :: EvTimeout delay :: evs).
        rewrite Happ, Hcalls, Htrace. simpl.
        repeat split; try lia.
        -- rewrite <- !app_assoc. reflexivity.
        -- unfold fetched in *. simpl. rewrite Hfetched. reflexivity.
        -- unfold delays in *. simpl. rewrite Hdelays.
           assert (1 <= n)%nat by (apply Hpos; lia).
           destruct n as [| n']; [lia |]. simpl. rewrite Nat.sub_0_r. reflexivity.
Qed.

End RetryShape.

(** ** The retry loop as the specification describes it *)

(** C10. Called with [retries <= 0], [fetchWithRetry] makes no HTTP attempt
    and starts no timer, and resolves with [undefined] instead of throwing:
    the machine is left exactly as it was. *)
Theorem fetchWithRetry_without_budget net url options retries delay m :
  retries <= 0 ->
  fetchWithRetry net url options retries delay m = (Normal undefined, m).
Proof.
  intros Hle. unfold fetchWithRetry. apply retry_from_done. exact Hle.
Qed.

Lemma fetchWithRetry_without_budget_witness :
  fetchWithRetry down "https://api.themoviedb.org/3/discover/movie"
    (API_OPTIONS (Some "token")) (-1) 1000 boot = (Normal undefined, boot).
Proof.
  apply fetchWithRetry_without_budget. lia.
Defined.

(** C2. With [retries = 3]: a first attempt that succeeds ends the call
    after that single request; a failure followed by a success ends it
    after the second request, with one delay and no third attempt; two
    failures followed by a success give the success value after exactly
    two delays, none after the third request; three failures throw the
    third attempt's own error, after the same two delays. *)
Theorem fetchWithRetry_three_attempts net url options delay m :
  (forall v,
      outcome (net (calls m) url) = Normal v ->
      fetchWithRetry net url options 3 delay m =
      (Normal v, mkMachine (app m) (trace m ++ [EvFetch url options]) (1 + calls m))) /\
  (forall e1 v,
      outcome (net (calls m) url) = Threw e1 ->
      outcome (net (1 + calls m)%nat url) = Normal v ->
      fetchWithRetry net url options 3 delay m =
      (Normal v,
       mkMachine (app m)
         (trace m ++ [EvFetch url options; EvTimeout delay; EvFetch url options])
         (2 + calls m))) /\
  (forall e1 e2 v,
      outcome (net (calls m) url) = Threw e1 ->
      outcome (net (1 + calls m)%nat url) = Threw e2 ->
      outcome (net (2 + calls m)%nat url) = Normal v ->
      fetchWithRetry net url options 3 delay m =
      (Normal v,
       mkMachine (app m)
         (trace m ++ [EvFetch url options; EvTimeout delay;
                      EvFetch url options; EvTimeout delay;
                      EvFetch url options])
         (3 + calls m))) /\
  (forall e1 e2 e3,
      outcome (net (calls m) url) = Threw e1 ->
      outcome (net (1 + calls m)%nat url) = Threw e2 ->
      outcome (net (2 + calls m)%nat url) = Threw e3 ->
      fetchWithRetry net url options 3 delay m =
      (Threw e3,
       mkMachine (app m)
         (trace m ++ [EvFetch url options; EvTimeout delay;
                      EvFetch url options; EvTimeout delay;
                      EvFetch url options])
         (3 + calls m))).
Proof.
  unfold fetchWithRetry. repeat split.
  - intros v Hv.
    rewrite (retry_from_success net url options 3 delay 0 m v) by (lia || exact Hv).
    reflexivity.
  - intros e1 v H1 H2.
    rewrite (retry_from_again net url options 3 delay 0 m e1) by (lia || exact H1).
    rewrite (retry_from_success net url options 3 delay (0 + 1) _ v) by (lia || exact H2).
    unfold after_sleep, after_fetch. simpl. rewrite <- !app_assoc. reflexivity.
  - intros e1 e2 v H1 H2 H3.
    rewrite (retry_from_again net url options 3 delay 0 m e1) by (lia || exact H1).
    rewrite (retry_from_again net url options 3 delay (0 + 1) _ e2) by (lia || exact H2).
    rewrite (retry_from_success net url options 3 delay (0 + 1 + 1) _ v)
      by (lia || exact H3).
    unfold after_sleep, after_fetch. simpl. rewrite <- !app_assoc. reflexivity.
  - intros e1 e2 e3 H1 H2 H3.
    rewrite (retry_from_again net url options 3 delay 0 m e1) by (lia || exact H1).
    rewrite (retry_from_again net url options 3 delay (0 + 1) _ e2) by (lia || exact H2).
    rewrite (retry_from_last net url options 3 delay (0 + 1 + 1) _ e3)
      by (lia || exact H3).
    unfold after_sleep, after_fetch. simpl. rewrite <- !app_assoc. reflexivity.
Qed.

Lemma fetchWithRetry_three_attempts_witness :
  fst (fetchWithRetry steady "u" (API_OPTIONS None) 3 1000 boot)
    = Normal (Some (body_of [sample_movie])) /\
  fetched (trace (snd (fetchWithRetry hiccup "u" (API_OPTIONS None) 3 1000 boot)))
    = ["u"; "u"] /\
  fst (fetchWithRetry flaky "u" (API_OPTIONS None) 3 1000 boot)
    = Normal (Some (body_of [sample_movie])) /\
  fst (fetchWithRetry down "u" (API_OPTIONS None) 3 1000 boot)
    = Threw (Error "HTTP error! status: 502").
Proof.
  split; [| split; [| split]].
  - rewrite (proj1 (fetchWithRetry_three_attempts steady "u" (API_OPTIONS None) 1000 boot)
               (Some (body_of [sample_movie])) eq_refl).
    reflexivity.
  - rewrite (proj1 (proj2 (fetchWithRetry_three_attempts hiccup "u" (API_OPTIONS None) 1000
                             boot))
               (Error "HTTP error! status: 502") (Some (body_of [sample_movie]))
               eq_refl eq_refl).
    reflexivity.
  - rewrite (proj1 (proj2 (proj2 (fetchWithRetry_three_attempts flaky "u" (API_OPTIONS None)
                                    1000 boot)))
               (TypeError "Failed to fetch") (Error "HTTP error! status: 503")
               (Some (body_of [sample_movie])) eq_refl eq_refl eq_refl).
    reflexivity.
  - rewrite (proj2 (proj2 (proj2 (fetchWithRetry_three_attempts down "u" (API_OPTIONS None)
                                    1000 boot)))
               (Error "HTTP error! status: 500") (Error "HTTP error! status: 501")
               (Error "HTTP error! status: 502") eq_refl eq_refl eq_refl).
    reflexivity.
Defined.

(** ** Strings and property lists *)

Lemma prefix_append p s : prefix p s = true <-> exists rest, s = p ++ rest.
Proof.
  revert s. induction p as [| a p IH]; intros s.
  - split; [intros _; exists s; reflexivity | intros _; destruct s; reflexivity].
  - destruct s as [| b s]; simpl.
    + split; [discriminate | intros [rest H]; discriminate].
    + destruct (ascii_dec a b) as [-> | Hne].
      * rewrite IH. split; intros [rest H]; exists rest.
        -- rewrite H. reflexivity.
        -- injection H as H. exact H.
      * split; [discriminate |].
        intros [rest H]. injection H as Hab _. congruence.
Qed.

(** [includes] decides substring containment. *)
Lemma includes_contains s sub : includes s sub = true <-> contains s sub.
Proof.
  unfold contains. split.
  - induction s as [| c s IH]; cbn [includes]; rewrite orb_true_iff; intros [Hp | Hr].
    + apply prefix_append in Hp. destruct Hp as [rest ->]. exists "", rest. reflexivity.
    + discriminate.
    + apply prefix_append in Hp. destruct Hp as [rest Hp]. exists "", rest. exact Hp.
    + destruct (IH Hr) as (before & after & ->).
      exists (String c before), after. reflexivity.
  - intros (before & after & ->). induction before as [| c before IH].
    + assert (Hp : prefix sub (sub ++ after) = true)
        by (apply prefix_append; exists after; reflexivity).
      change ("" ++ sub ++ after) with (sub ++ after).
      destruct (sub ++ after); cbn [includes]; rewrite Hp; reflexivity.
    + change (String c before ++ sub ++ after) with (String c (before ++ sub ++ after)).
      cbn [includes]. rewrite IH. apply orb_true_r.
Qed.

Lemma append_cancel (p a b : string) : p ++ a = p ++ b -> a = b.
Proof.
  induction p as [| c p IH]; simpl; intros H; [exact H |].
  injection H as H. apply IH. exact H.
Qed.

Lemma lookup_set_prop_same k v props : lookup k (set_prop k v props) = Some v.
Proof.
  induction props as [| [k' v'] props IH]; simpl.
  - rewrite String.eqb_refl. reflexivity.
  - destruct (String.eqb k k') eqn:E; simpl; rewrite E; [reflexivity | exact IH].
Qed.

Lemma lookup_set_prop_other k k' v props :
  k' <> k -> lookup k' (set_prop k v props) = lookup k' props.
Proof.
  intros Hne. induction props as [| [k0 v0] props IH]; simpl.
  - destruct (String.eqb k' k) eqn:E; [apply String.eqb_eq in E; contradiction | reflexivity].
  - destruct (String.eqb k k0) eqn:E; simpl.
    + apply String.eqb_eq in E. subst k0.
      destruct (String.eqb k' k) eqn:E'; [apply String.eqb_eq in E'; contradiction | reflexivity].
    + destruct (String.eqb k' k0); [reflexivity | exact IH].
Qed.

Lemma others_set_prop k v props : others k (set_prop k v props) = others k props.
Proof.
  unfold others. induction props as [| [k0 v0] props IH]; simpl.
  - rewrite String.eqb_refl. reflexivity.
  - destruct (String.eqb k k0) eqn:E; simpl; rewrite E; simpl; [reflexivity |].
    rewrite IH. reflexivity.
Qed.

Lemma map_throwing_Forall2 {A B} (f : A -> completion B) l out :
  map_throwing f l = Normal out <-> Forall2 (fun x y => f x = Normal y) l out.
Proof.
  revert out. induction l as [| x l IH]; intros out; simpl.
  - split; intros H; [injection H as <-; constructor | inversion H; reflexivity].
  - split.
    + destruct (f x) as [y |] eqn:Hx; [| discriminate].
      destruct (map_throwing f l) as [ys |]; [| discriminate].
      intros H. injection H as <-. constructor; [exact Hx | apply IH; reflexivity].
    + intros H. inversion H as [| x' y l' ys Hx Hrest]; subst.
      rewrite Hx. apply IH in Hrest. rewrite Hrest. reflexivity.
Qed.

Lemma map_throwing_length {A B} (f : A -> completion B) l out :
  map_throwing f l = Normal out -> length out = length l.
Proof.
  intros H. apply map_throwing_Forall2 in H. symmetry. eapply Forall2_length. exact H.
Qed.

(** ** The shape of a run of [fetchMovies] *)

Section RunFacts.

Variable API_KEY : option string.
Variable net : world.
Variable query : string.

Lemma key_missing_iff : key_missing API_KEY = true <-> API_KEY = None \/ API_KEY = Some "".
Proof.
  unfold key_missing, nonempty. destruct API_KEY as [k |].
  - rewrite negb_involutive, String.eqb_eq. split.
    + intros ->. right. reflexivity.
    + intros [H | H]; [discriminate | injection H as ->; reflexivity].
  - split; [intros _; left; reflexivity | reflexivity].
Qed.

(** Without a credential the function stops after two setter calls. *)
Lemma fetchMovies_unconfigured m :
  key_missing API_KEY = true ->
  fetchMovies API_KEY net query m =
  (Normal tt,
   mkMachine
     (mkApp (searchTerm (app m)) (movieList (app m))
            "API key is missing. Please check your configuration." false
            (selectedMovie (app m)))
     (trace m) (calls m)).
Proof.
  intros Hkey. unfold fetchMovies. rewrite Hkey. reflexivity.
Qed.

(** With a credential, the run is the [try] block from the loading state,
    then the [catch] block if it threw, then the [finally] block. *)
Lemma fetchMovies_configured m :
  key_missing API_KEY = false ->
  fetchMovies API_KEY net query m =
  match fetchMovies_try API_KEY net query (loading m) with
  | (Normal _, m') => (Normal tt, settled m')
  | (Threw e, m') => (Normal tt, settled (refused (error_text e) (complained e m')))
  end.
Proof.
  intros Hkey. unfold fetchMovies. rewrite Hkey.
  unfold bind at 1. unfold setIsLoading at 1, update at 1.
  unfold bind at 1. unfold setErrorMessage at 1, update at 1.
  unfold try_finally, try_catch. cbn [app trace calls searchTerm movieList errorMessage
                                      isLoading selectedMovie].
  change (mkMachine _ _ _) with (loading m).
  destruct (fetchMovies_try API_KEY net query (loading m)) as [[[] | e] m']; reflexivity.
Qed.

End RunFacts.

Section TryFacts.

Variable API_KEY : option string.
Variable net : world.
Variable query : string.

Lemma examine_empty data : empty_page data -> examine data = NoRecords.
Proof.
  intros (results & Hmember & Hnone). unfold examine. rewrite Hmember, Hnone. reflexivity.
Qed.

Lemma examine_records data records shown :
  page_with data records ->
  map_throwing transform records = Normal shown ->
  examine data = Records shown.
Proof.
  intros [Hmember Hsome] Hmap. unfold examine. rewrite Hmember.
  destruct records as [| r records]; [contradiction |].
  unfold no_results, map_results. cbn [truthy negb length_is_zero].
  rewrite Hmap. reflexivity.
Qed.

Lemma examine_NoRecords_inv data : examine data = NoRecords -> empty_page data.
Proof.
  unfold examine, empty_page. intros H.
  destruct (member data "results") as [results | e] eqn:Hmember; [| discriminate].
  destruct (no_results results) as [[|] | e] eqn:Hnone; try discriminate.
  - exists results. split; [reflexivity | exact Hnone].
  - destruct (map_results results); discriminate.
Qed.

Lemma examine_Records_inv data shown :
  examine data = Records shown ->
  exists records, page_with data records /\ map_throwing transform records = Normal shown.
Proof.
  unfold examine, page_with. intros H.
  destruct (member data "results") as [results | e] eqn:Hmember; [| discriminate].
  destruct (no_results results) as [[|] | e] eqn:Hnone; try discriminate.
  destruct (map_results results) as [out | e] eqn:Hmap; [| discriminate].
  injection H as ->.
  destruct results as [[| b | r | s | elems | props] |]; try discriminate.
  exists elems. repeat split; [| exact Hmap].
  intros ->. discriminate.
Qed.

(** A search runs the loop body once. *)
Lemma fetchMovies_try_search m :
  nonempty query = true ->
  fetchMovies_try API_KEY net query m =
  match lookup_page API_KEY net query 1 m with
  | (Threw e, m1) => (Threw e, m1)
  | (Normal data, m1) =>
      match examine data with
      | Faulty e => (Threw e, m1)
      | NoRecords => (Normal tt, refused "No movies found for your search" m1)
      | Records shown => (Normal tt, showing shown m1)
      end
  end.
Proof.
  intros Hq. unfold fetchMovies_try. rewrite Hq. unfold bind at 1.
  rewrite pages_from_turn by lia. fold (lookup_page API_KEY net query 1). rewrite Hq.
  destruct (lookup_page API_KEY net query 1 m) as [[data | e] m1]; [| reflexivity].
  destruct (examine data) as [| shown | e];
    first [reflexivity | rewrite pages_from_over by lia; reflexivity].
Qed.

(** Browsing runs it once or twice. *)
Lemma fetchMovies_try_browse m :
  nonempty query = false ->
  fetchMovies_try API_KEY net query m =
  match lookup_page API_KEY net query 1 m with
  | (Threw e, m1) => (Threw e, m1)
  | (Normal data1, m1) =>
      match examine data1 with
      | Faulty e => (Threw e, m1)
      | NoRecords => (Normal tt, refused "No movies available" m1)
      | Records shown1 =>
          match lookup_page API_KEY net query 2 m1 with
          | (Threw e, m2) => (Threw e, m2)
          | (Normal data2, m2) =>
              match examine data2 with
              | Faulty e => (Threw e, m2)
              | NoRecords => (Normal tt, showing shown1 m2)
              | Records shown2 => (Normal tt, showing (shown1 ++ shown2) m2)
              end
          end
      end
  end.
Proof.
  intros Hq. unfold fetchMovies_try. rewrite Hq. unfold bind at 1.
  rewrite pages_from_turn by lia. fold (lookup_page API_KEY net query 1). rewrite Hq.
  destruct (lookup_page API_KEY net query 1 m) as [[data1 | e] m1]; [| reflexivity].
  destruct (examine data1) as [| shown1 | e]; try reflexivity.
  change (1 + 1) with 2. rewrite pages_from_turn by lia. fold (lookup_page API_KEY net query 2).
  destruct (lookup_page API_KEY net query 2 m1) as [[data2 | e] m2]; [| reflexivity].
  destruct (examine data2) as [| shown2 | e];
    first [reflexivity | rewrite pages_from_over by lia; reflexivity].
Qed.

End TryFacts.

(** ** The record transformation *)

(** C7. Poster resolution depends on the raw [poster_path] alone and never
    fails on a string: a non-empty fragment such as ["/abc.jpg"] gives the
    image host and size prefix followed by the fragment; an absent, [null]
    or empty fragment gives the local placeholder.  The record that
    [fetchMovies] builds carries exactly that value. *)
Theorem poster_url_resolution :
  (forall fragment, fragment <> "" ->
     poster_url (Some (JStr fragment)) =
     Normal ("https://image.tmdb.org/t/p/w500" ++ fragment)) /\
  poster_url (Some (JStr "/abc.jpg")) = Normal "https://image.tmdb.org/t/p/w500/abc.jpg" /\
  poster_url None = Normal "./No-Poster.png" /\
  poster_url (Some JNull) = Normal "./No-Poster.png" /\
  poster_url (Some (JStr "")) = Normal "./No-Poster.png" /\
  (forall fragment, exists url, poster_url (Some (JStr fragment)) = Normal url) /\
  (forall props url,
     poster_url (lookup "poster_path" props) = Normal url ->
     exists shown,
       transform (JObj props) = Normal (JObj shown) /\
       lookup "poster_path" shown = Some (JStr url)).
Proof.
  assert (Hstr : forall fragment, fragment <> "" ->
            poster_url (Some (JStr fragment)) =
            Normal ("https://image.tmdb.org/t/p/w500" ++ fragment)).
  { intros fragment Hne. unfold poster_url. cbn [truthy].
    destruct (String.eqb fragment "") eqn:E.
    - apply String.eqb_eq in E. contradiction.
    - reflexivity. }
  repeat split; try reflexivity.
  - exact Hstr.
  - intros fragment. destruct (string_dec fragment "") as [-> | Hne].
    + exists "./No-Poster.png". reflexivity.
    + eexists. apply Hstr. exact Hne.
  - intros props url Hurl.
    exists (set_prop "poster_path" (JStr url) props). split.
    + unfold transform. cbn [member spread]. rewrite Hurl. reflexivity.
    + apply lookup_set_prop_same.
Qed.

Lemma poster_url_resolution_witness :
  poster_url (Some (JStr "/kqjL17yufvn9OVLyXYpvtyrFfak.jpg")) =
    Normal "https://image.tmdb.org/t/p/w500/kqjL17yufvn9OVLyXYpvtyrFfak.jpg" /\
  exists shown,
    transform sample_movie = Normal (JObj shown) /\
    lookup "poster_path" shown = Some (JStr "https://image.tmdb.org/t/p/w500/abc.jpg").
Proof.
  split.
  - apply (proj1 poster_url_resolution). discriminate.
  - apply (proj2 (proj2 (proj2 (proj2 (proj2 (proj2 poster_url_resolution)))))).
    reflexivity.
Defined.

(** C9. The transformation rewrites [poster_path] and nothing else: the
    result is an object whose properties under every other name are those
    the spread copied from the raw record, with the same values and in the
    same order.  For an object record those are all its fields. *)
Theorem transform_frame movie shown :
  transform movie = Normal shown ->
  exists props,
    shown = JObj props /\
    (exists url, lookup "poster_path" props = Some (JStr url)) /\
    others "poster_path" props = others "poster_path" (spread movie) /\
    (forall name, name <> "poster_path" -> lookup name props = lookup name (spread movie)) /\
    (forall fields, movie = JObj fields ->
       others "poster_path" props = others "poster_path" fields /\
       forall name, name <> "poster_path" -> lookup name props = lookup name fields).
Proof.
  unfold transform. intros H.
  destruct (member (Some movie) "poster_path") as [p | e]; [| discriminate].
  destruct (poster_url p) as [url | e]; [| discriminate].
  injection H as <-.
  exists (set_prop "poster_path" (JStr url) (spread movie)).
  split; [reflexivity |]. split; [| split; [| split]].
  - exists url. apply lookup_set_prop_same.
  - apply others_set_prop.
  - intros name Hname. apply lookup_set_prop_other. exact Hname.
  - intros fields ->. cbn [spread]. split.
    + apply others_set_prop.
    + intros name Hname. apply lookup_set_prop_other. exact Hname.
Qed.

Lemma transform_frame_witness :
  exists props,
    JObj [("id", JNum "550"); ("title", JStr "Fight Club");
          ("overview", JStr "An insomniac office worker.");
          ("poster_path", JStr "https://image.tmdb.org/t/p/w500/abc.jpg");
          ("vote_average", JNum "8.4")] = JObj props /\
    (exists url, lookup "poster_path" props = Some (JStr url)) /\
    others "poster_path" props = others "poster_path" (spread sample_movie) /\
    (forall name, name <> "poster_path" ->
       lookup name props = lookup name (spread sample_movie)) /\
    (forall fields, sample_movie = JObj fields ->
       others "poster_path" props = others "poster_path" fields /\
       forall name, name <> "poster_path" -> lookup name props = lookup name fields).
Proof.
  apply (transform_frame sample_movie). reflexivity.
Defined.

(** ** Errors *)

(** C5. With no credential configured ([undefined] or the empty string),
    [fetchMovies] sets the configuration message and returns, whatever the
    query and the network: no HTTP call is made, no timer is started, and
    the trace is untouched. *)
Theorem fetchMovies_without_credential API_KEY net query m :
  API_KEY = None \/ API_KEY = Some "" ->
  fst (fetchMovies API_KEY net query m) = Normal tt /\
  errorMessage (app (snd (fetchMovies API_KEY net query m))) =
    "API key is missing. Please check your configuration." /\
  isLoading (app (snd (fetchMovies API_KEY net query m))) = false /\
  trace (snd (fetchMovies API_KEY net query m)) = trace m /\
  calls (snd (fetchMovies API_KEY net query m)) = calls m.
Proof.
  intros Hkey. apply key_missing_iff in Hkey.
  rewrite fetchMovies_unconfigured by exact Hkey. repeat split.
Qed.

Lemma fetchMovies_without_credential_witness :
  fst (fetchMovies None steady "batman" boot) = Normal tt /\
  errorMessage (app (snd (fetchMovies None steady "batman" boot))) =
    "API key is missing. Please check your configuration." /\
  isLoading (app (snd (fetchMovies None steady "batman" boot))) = false /\
  trace (snd (fetchMovies None steady "batman" boot)) = trace boot /\
  calls (snd (fetchMovies None steady "batman" boot)) = calls boot.
Proof.
  apply fetchMovies_without_credential. left. reflexivity.
Defined.

(** C4, as the specification words it, fails on a message that holds both
    codes: the body [HTTP 429/401] makes [json()] throw an error whose
    message contains ["429"], and the handler shows the credential message,
    not the rate-limit one. *)
Lemma error_text_both_codes :
  fst (fetchMovies_try (Some "token") garbled "" (loading boot)) = Threw garbled_error /\
  includes (err_message garbled_error) "429" = true /\
  errorMessage (app (snd (fetchMovies (Some "token") garbled "" boot))) <>
    "Rate limit exceeded. Please try again later.".
Proof.
  split; [vm_compute; reflexivity |]. split; [vm_compute; reflexivity |].
  vm_compute. discriminate.
Qed.

(** C4, amended. When the [try] block of [fetchMovies] throws, the message
    shown is the credential message if the error text contains ["401"];
    otherwise the rate-limit message if it contains ["429"]; otherwise the
    try-again-later message. *)
Theorem fetchMovies_failure_message API_KEY net query m e m' :
  key_missing API_KEY = false ->
  fetchMovies_try API_KEY net query (loading m) = (Threw e, m') ->
  (contains (err_message e) "401" ->
     errorMessage (app (snd (fetchMovies API_KEY net query m))) =
     "Invalid API key. Please check your TMDB API configuration.") /\
  (~ contains (err_message e) "401" -> contains (err_message e) "429" ->
     errorMessage (app (snd (fetchMovies API_KEY net query m))) =
     "Rate limit exceeded. Please try again later.") /\
  (~ contains (err_message e) "401" -> ~ contains (err_message e) "429" ->
     errorMessage (app (snd (fetchMovies API_KEY net query m))) =
     "Error fetching movies. Please try again later.").
Proof.
  intros Hkey Htry. rewrite fetchMovies_configured by exact Hkey. rewrite Htry.
  cbn [snd settled refused complained app errorMessage]. unfold error_text.
  repeat split.
  - intros H401. apply includes_contains in H401. rewrite H401. reflexivity.
  - intros H401 H429. apply includes_contains in H429.
    destruct (includes (err_message e) "401") eqn:E.
    + exfalso. apply H401. apply includes_contains. exact E.
    + rewrite H429. reflexivity.
  - intros H401 H429.
    destruct (includes (err_message e) "401") eqn:E401.
    + exfalso. apply H401. apply includes_contains. exact E401.
    + destruct (includes (err_message e) "429") eqn:E429.
      * exfalso. apply H429. apply includes_contains. exact E429.
      * reflexivity.
Qed.

Lemma fetchMovies_failure_message_witness :
  errorMessage (app (snd (fetchMovies (Some "token") down "" boot))) =
  "Error fetching movies. Please try again later.".
Proof.
  refine (proj2 (proj2 (fetchMovies_failure_message (Some "token") down "" boot
                          (Error "HTTP error! status: 502") _ eq_refl eq_refl)) _ _).
  - intros H. apply includes_contains in H. vm_compute in H. discriminate.
  - intros H. apply includes_contains in H. vm_compute in H. discriminate.
Defined.

(** ** Pages and requests *)

Lemma endpoint_pages_differ query : endpoint query 1 <> endpoint query 2.
Proof.
  unfold endpoint. destruct (nonempty query); intros H.
  - do 4 apply append_cancel in H. vm_compute in H. discriminate.
  - do 2 apply append_cancel in H. vm_compute in H. discriminate.
Qed.

(** A page lookup makes one to three requests, all for that page, and does
    not touch the component's state. *)
Lemma fetchWithRetry_shape net url options delay m :
  exists n,
    (1 <= n <= 3)%nat /\
    app (snd (fetchWithRetry net url options 3 delay m)) = app m /\
    calls (snd (fetchWithRetry net url options 3 delay m)) = (calls m + n)%nat /\
    fetched (trace (snd (fetchWithRetry net url options 3 delay m))) =
      (fetched (trace m) ++ repeat url n)%list /\
    delays (trace (snd (fetchWithRetry net url options 3 delay m))) =
      (delays (trace m) ++ repeat delay (n - 1))%list.
Proof.
  unfold fetchWithRetry.
  destruct (retry_from_shape net url options 3 delay 0 m)
    as (n & evs & Hn & Hpos & Happ & Hcalls & Htrace & Hfetched & Hdelays).
  exists n. rewrite Happ, Hcalls, Htrace, fetched_app, delays_app, Hfetched, Hdelays.
  assert (1 <= n)%nat by (apply Hpos; lia).
  repeat split; lia.
Qed.

Lemma error_text_listed e : In (error_text e) error_messages.
Proof.
  unfold error_text, error_messages.
  destruct (includes (err_message e) "401"); [simpl; tauto |].
  destruct (includes (err_message e) "429"); simpl; tauto.
Qed.

Lemma error_messages_nonempty msg : In msg error_messages -> msg <> "".
Proof.
  unfold error_messages. simpl. intros H.
  repeat (destruct H as [<- | H]; [discriminate |]). contradiction.
Qed.

Section Outcomes.

Variable API_KEY : option string.
Variable net : world.
Variable query : string.
Hypothesis configured : key_missing API_KEY = false.


End Outcomes.

(** ** Data and error exclude each other *)



(** C6. Whatever the network does, the requests of one run of
    [fetchMovies] go first to the endpoint of page 1 and then to the
    endpoint of page 2, each at most three times (the retries of one page
    lookup); page 2 is requested only after page 1, and never for a
    non-empty query.  The two endpoints differ. *)
Theorem fetchMovies_page_requests API_KEY net query m :
  endpoint query 1 <> endpoint query 2 /\
  exists n1 n2,
    (n1 <= 3)%nat /\ (n2 <= 3)%nat /\
    (1 <= n2 -> 1 <= n1)%nat /\
    (query <> "" -> n2 = 0%nat) /\
    fetched (trace (snd (fetchMovies API_KEY net query m))) =
      (fetched (trace m) ++ repeat (endpoint query 1) n1 ++ repeat (endpoint query 2) n2)%list.
Proof.
  split; [apply endpoint_pages_differ |].
  assert (Hnone : forall t : list string, t = (t ++ repeat (endpoint query 1) 0
                                                 ++ repeat (endpoint query 2) 0)%list)
    by (intros t; simpl; rewrite app_nil_r; reflexivity).
  assert (Hone : forall (t : list string) n, (t ++ repeat (endpoint query 1) n)%list =
                   (t ++ repeat (endpoint query 1) n ++ repeat (endpoint query 2) 0)%list)
    by (intros t n; simpl; rewrite app_nil_r; reflexivity).
  destruct (key_missing API_KEY) eqn:Hkey.
  { rewrite fetchMovies_unconfigured by exact Hkey. exists 0%nat, 0%nat. simpl.
    repeat split; try lia. apply Hnone. }
  rewrite fetchMovies_configured by exact Hkey.
  destruct (fetchWithRetry_shape net (endpoint query 1) (API_OPTIONS API_KEY) 1000 (loading m))
    as (n1 & Hn1 & _ & _ & Hf1 & _).
  assert (Hempty : nonempty query = false -> query = "").
  { unfold nonempty. intros H. apply negb_false_iff, String.eqb_eq in H. exact H. }
  destruct (nonempty query) eqn:Hq.
  - rewrite fetchMovies_try_search by exact Hq. unfold lookup_page.
    destruct (fetchWithRetry _ _ _ _ _ (loading m)) as [[data | e] m1]; simpl in Hf1.
    + exists n1, 0%nat.
      destruct (examine data) as [| shown | e]; simpl;
        try rewrite fetched_app; simpl; try rewrite app_nil_r;
        rewrite Hf1; (repeat split; try lia); apply Hone.
    + exists n1, 0%nat. simpl. rewrite fetched_app. simpl. rewrite app_nil_r, Hf1.
      repeat split; try lia. apply Hone.
  - rewrite fetchMovies_try_browse by exact Hq. unfold lookup_page.
    destruct (fetchWithRetry _ _ _ _ _ (loading m)) as [[data1 | e] m1]; simpl in Hf1.
    + destruct (examine data1) as [| shown1 | e].
      * exists n1, 0%nat. simpl. rewrite Hf1. repeat split; try lia. apply Hone.
      * destruct (fetchWithRetry_shape net (endpoint query 2) (API_OPTIONS API_KEY) 1000 m1)
          as (n2 & Hn2 & _ & _ & Hf2 & _).
        exists n1, n2.
        assert (Hno : query <> "" -> n2 = 0%nat)
          by (intros Hne; exfalso; apply Hne, Hempty; reflexivity).
        destruct (fetchWithRetry _ _ _ _ _ m1) as [[data2 | e] m2]; simpl in Hf2.
        -- destruct (examine data2) as [| shown2 | e]; simpl;
             try rewrite fetched_app; simpl; try rewrite app_nil_r;
             rewrite Hf2, Hf1, <- app_assoc; (repeat split; try lia); exact Hno.
        -- simpl. rewrite fetched_app. simpl. rewrite app_nil_r, Hf2, Hf1, <- app_assoc.
           repeat split; try lia. exact Hno.
      * exists n1, 0%nat. simpl. rewrite fetched_app. simpl. rewrite app_nil_r, Hf1.
        repeat split; try lia. apply Hone.
    + exists n1, 0%nat. simpl. rewrite fetched_app. simpl. rewrite app_nil_r, Hf1.
      repeat split; try lia. apply Hone.
Qed.

(** ** Empty pages *)

(** C3. If the first page's result set is empty, the run ends at once with
    the no-results message of its mode (the two differ) and an empty list,
    and nothing is requested after the lookup of page 1.  If, when
    browsing, page 1 has records and page 2's result set is empty, the
    records of page 1 are shown and no error is set. *)
Theorem fetchMovies_empty_page API_KEY net query m :
  key_missing API_KEY = false ->
  "No movies found for your search" <> "No movies available" /\
  (forall data m1,
     fetchWithRetry net (endpoint query 1) (API_OPTIONS API_KEY) 3 1000 (loading m)
       = (Normal data, m1) ->
     empty_page data ->
     errorMessage (app (snd (fetchMovies API_KEY net query m))) =
       (if nonempty query then "No movies found for your search"
        else "No movies available") /\
     movieList (app (snd (fetchMovies API_KEY net query m))) = [] /\
     trace (snd (fetchMovies API_KEY net query m)) = trace m1 /\
     calls (snd (fetchMovies API_KEY net query m)) = calls m1 /\
     exists n, (1 <= n <= 3)%nat /\
       fetched (trace (snd (fetchMovies API_KEY net query m))) =
         (fetched (trace m) ++ repeat (endpoint query 1) n)%list) /\
  (forall data1 m1 records shown data2 m2,
     query = "" ->
     fetchWithRetry net (endpoint query 1) (API_OPTIONS API_KEY) 3 1000 (loading m)
       = (Normal data1, m1) ->
     page_with data1 records ->
     map_throwing transform records = Normal shown ->
     fetchWithRetry net (endpoint query 2) (API_OPTIONS API_KEY) 3 1000 m1
       = (Normal data2, m2) ->
     empty_page data2 ->
     movieList (app (snd (fetchMovies API_KEY net query m))) = shown /\
     errorMessage (app (snd (fetchMovies API_KEY net query m))) = "" /\
     trace (snd (fetchMovies API_KEY net query m)) = trace m2).
Proof.
  intros Hkey. split; [discriminate |]. split.
  - intros data m1 Hlookup Hempty.
    destruct (fetchWithRetry_shape net (endpoint query 1) (API_OPTIONS API_KEY) 1000 (loading m))
      as (n & Hn & _ & _ & Hfetched & _).
    rewrite Hlookup in Hfetched. simpl in Hfetched.
    rewrite fetchMovies_configured by exact Hkey.
    apply examine_empty in Hempty.
    destruct (nonempty query) eqn:Hq.
    + rewrite fetchMovies_try_search by exact Hq. unfold lookup_page. rewrite Hlookup, Hempty. simpl.
      repeat split. exists n. split; [exact Hn | exact Hfetched].
    + rewrite fetchMovies_try_browse by exact Hq. unfold lookup_page. rewrite Hlookup, Hempty. simpl.
      repeat split. exists n. split; [exact Hn | exact Hfetched].
  - intros data1 m1 records shown data2 m2 -> Hlookup1 Hpage Hmap Hlookup2 Hempty.
    destruct (fetchWithRetry_shape net (endpoint "" 1) (API_OPTIONS API_KEY) 1000 (loading m))
      as (n1 & _ & Happ1 & _).
    destruct (fetchWithRetry_shape net (endpoint "" 2) (API_OPTIONS API_KEY) 1000 m1)
      as (n2 & _ & Happ2 & _).
    rewrite Hlookup1 in Happ1. rewrite Hlookup2 in Happ2. simpl in Happ1, Happ2.
    rewrite fetchMovies_configured by exact Hkey.
    rewrite fetchMovies_try_browse by reflexivity. unfold lookup_page.
    rewrite Hlookup1, (examine_records data1 records shown Hpage Hmap).
    rewrite Hlookup2, (examine_empty data2 Hempty). simpl.
    rewrite Happ2, Happ1. repeat split.
Qed.

Lemma fetchMovies_empty_page_witness :
  errorMessage (app (snd (fetchMovies (Some "token") barren "batman" boot))) =
    "No movies found for your search" /\
  errorMessage (app (snd (fetchMovies (Some "token") barren "" boot))) =
    "No movies available" /\
  length (movieList (app (snd (fetchMovies (Some "token") short_catalogue "" boot)))) = 2%nat.
Proof.
  split; [| split].
  - refine (proj1 (proj1 (proj2 (fetchMovies_empty_page (Some "token") barren "batman" boot
                                   eq_refl))
                     (Some (body_of [])) _ eq_refl _)).
    exists (Some (JArr [])). split; reflexivity.
  - refine (proj1 (proj1 (proj2 (fetchMovies_empty_page (Some "token") barren "" boot
                                   eq_refl))
                     (Some (body_of [])) _ eq_refl _)).
    exists (Some (JArr [])). split; reflexivity.
  - rewrite (proj1 (proj2 (proj2 (fetchMovies_empty_page (Some "token") short_catalogue ""
                                    boot eq_refl))
                      (Some (body_of [sample_movie; bare_movie])) _
                      [sample_movie; bare_movie] _ (Some (body_of [])) _
                      eq_refl eq_refl
                      (conj eq_refl (fun H => nil_cons (eq_sym H))) eq_refl eq_refl
                      (ex_intro _ (Some (JArr [])) (conj eq_refl eq_refl)))).
    reflexivity.
Defined.

(** ** The list shown on success *)

(** C8. On success the list shown is the transformed records of the pages
    that had any, page after page, each page in the order the provider
    gave: one page for a search, two when browsing (or the first alone when
    the second is empty).  Twenty records on each of two pages give forty
    entries.  Every run that ends without an error message is one of these
    three. *)
Theorem fetchMovies_concatenates API_KEY net query m :
  key_missing API_KEY = false ->
  (forall data m1 records shown,
     query <> "" ->
     fetchWithRetry net (endpoint query 1) (API_OPTIONS API_KEY) 3 1000 (loading m)
       = (Normal data, m1) ->
     page_with data records ->
     map_throwing transform records = Normal shown ->
     movieList (app (snd (fetchMovies API_KEY net query m))) = shown /\
     errorMessage (app (snd (fetchMovies API_KEY net query m))) = "" /\
     Forall2 (fun raw movie => transform raw = Normal movie) records
       (movieList (app (snd (fetchMovies API_KEY net query m))))) /\
  (forall data1 m1 records1 shown1 data2 m2 records2 shown2,
     query = "" ->
     fetchWithRetry net (endpoint query 1) (API_OPTIONS API_KEY) 3 1000 (loading m)
       = (Normal data1, m1) ->
     page_with data1 records1 ->
     map_throwing transform records1 = Normal shown1 ->
     fetchWithRetry net (endpoint query 2) (API_OPTIONS API_KEY) 3 1000 m1
       = (Normal data2, m2) ->
     page_with data2 records2 ->
     map_throwing transform records2 = Normal shown2 ->
     movieList (app (snd (fetchMovies API_KEY net query m))) = (shown1 ++ shown2)%list /\
     errorMessage (app (snd (fetchMovies API_KEY net query m))) = "" /\
     Forall2 (fun raw movie => transform raw = Normal movie) (records1 ++ records2)
       (movieList (app (snd (fetchMovies API_KEY net query m)))) /\
     (length records1 = 20%nat -> length records2 = 20%nat ->
      length (movieList (app (snd (fetchMovies API_KEY net query m)))) = 40%nat)) /\
  (forall data1 m1 records1 shown1 data2 m2,
     query = "" ->
     fetchWithRetry net (endpoint query 1) (API_OPTIONS API_KEY) 3 1000 (loading m)
       = (Normal data1, m1) ->
     page_with data1 records1 ->
     map_throwing transform records1 = Normal shown1 ->
     fetchWithRetry net (endpoint query 2) (API_OPTIONS API_KEY) 3 1000 m1
       = (Normal data2, m2) ->
     empty_page data2 ->
     movieList (app (snd (fetchMovies API_KEY net query m))) = shown1 /\
     errorMessage (app (snd (fetchMovies API_KEY net query m))) = "" /\
     Forall2 (fun raw movie => transform raw = Normal movie) records1
       (movieList (app (snd (fetchMovies API_KEY net query m))))) /\
  (errorMessage (app (snd (fetchMovies API_KEY net query m))) = "" ->
   exists data1 m1 records1 shown1,
     fetchWithRetry net (endpoint query 1) (API_OPTIONS API_KEY) 3 1000 (loading m)
       = (Normal data1, m1) /\
     page_with data1 records1 /\
     map_throwing transform records1 = Normal shown1 /\
     ((query <> "" /\
       movieList (app (snd (fetchMovies API_KEY net query m))) = shown1) \/
      (query = "" /\
       exists data2 m2,
         fetchWithRetry net (endpoint query 2) (API_OPTIONS API_KEY) 3 1000 m1
           = (Normal data2, m2) /\
         ((empty_page data2 /\
           movieList (app (snd (fetchMovies API_KEY net query m))) = shown1) \/
          (exists records2 shown2,
             page_with data2 records2 /\
             map_throwing transform records2 = Normal shown2 /\
             movieList (app (snd (fetchMovies API_KEY net query m)))
               = (shown1 ++ shown2)%list))))).
Proof.
  intros Hkey. rewrite fetchMovies_configured by exact Hkey. split; [| split; [| split]].
  - intros data m1 records shown Hquery Hlookup Hpage Hmap.
    assert (Hq : nonempty query = true).
    { unfold nonempty. apply negb_true_iff, String.eqb_neq. exact Hquery. }
    destruct (fetchWithRetry_shape net (endpoint query 1) (API_OPTIONS API_KEY) 1000 (loading m))
      as (n & _ & Happ & _).
    rewrite Hlookup in Happ. simpl in Happ.
    rewrite fetchMovies_try_search by exact Hq. unfold lookup_page.
    rewrite Hlookup, (examine_records data records shown Hpage Hmap). simpl.
    rewrite Happ. repeat split. apply map_throwing_Forall2. exact Hmap.
  - intros data1 m1 records1 shown1 data2 m2 records2 shown2
           -> Hlookup1 Hpage1 Hmap1 Hlookup2 Hpage2 Hmap2.
    destruct (fetchWithRetry_shape net (endpoint "" 1) (API_OPTIONS API_KEY) 1000 (loading m))
      as (n1 & _ & Happ1 & _).
    destruct (fetchWithRetry_shape net (endpoint "" 2) (API_OPTIONS API_KEY) 1000 m1)
      as (n2 & _ & Happ2 & _).
    rewrite Hlookup1 in Happ1. rewrite Hlookup2 in Happ2. simpl in Happ1, Happ2.
    rewrite fetchMovies_try_browse by reflexivity. unfold lookup_page.
    rewrite Hlookup1, (examine_records data1 records1 shown1 Hpage1 Hmap1).
    rewrite Hlookup2, (examine_records data2 records2 shown2 Hpage2 Hmap2). simpl.
    rewrite Happ2, Happ1. repeat split.
    + apply Forall2_app; apply map_throwing_Forall2; assumption.
    + intros H1 H2. rewrite length_app.
      rewrite (map_throwing_length _ _ _ Hmap1), (map_throwing_length _ _ _ Hmap2), H1, H2.
      reflexivity.
  - intros data1 m1 records1 shown1 data2 m2 -> Hlookup1 Hpage1 Hmap1 Hlookup2 Hempty.
    destruct (fetchWithRetry_shape net (endpoint "" 1) (API_OPTIONS API_KEY) 1000 (loading m))
      as (n1 & _ & Happ1 & _).
    destruct (fetchWithRetry_shape net (endpoint "" 2) (API_OPTIONS API_KEY) 1000 m1)
      as (n2 & _ & Happ2 & _).
    rewrite Hlookup1 in Happ1. rewrite Hlookup2 in Happ2. simpl in Happ1, Happ2.
    rewrite fetchMovies_try_browse by reflexivity. unfold lookup_page.
    rewrite Hlookup1, (examine_records data1 records1 shown1 Hpage1 Hmap1).
    rewrite Hlookup2, (examine_empty data2 Hempty). simpl.
    rewrite Happ2, Happ1. repeat split. apply map_throwing_Forall2. exact Hmap1.
  - assert (Hfailed : forall e m0,
              errorMessage (app (settled (refused (error_text e) (complained e m0)))) <> "")
      by (intros e m0; simpl; apply error_messages_nonempty, error_text_listed).
    destruct (nonempty query) eqn:Hq.
    + assert (Hquery : query <> "") by (intros ->; discriminate).
      rewrite fetchMovies_try_search by exact Hq. unfold lookup_page.
      destruct (fetchWithRetry _ _ _ _ _ (loading m)) as [[data1 | e] m1];
        [| intros H; exfalso; exact (Hfailed _ _ H)].
      destruct (examine data1) as [| shown1 | e] eqn:Hex1;
        [intros H; discriminate H | | intros H; exfalso; exact (Hfailed _ _ H)].
      intros _. destruct (examine_Records_inv _ _ Hex1) as (records1 & Hpage1 & Hmap1).
      exists data1, m1, records1, shown1.
      split; [reflexivity |]. split; [exact Hpage1 |]. split; [exact Hmap1 |].
      left. split; [exact Hquery | reflexivity].
    + assert (Hquery : query = "").
      { unfold nonempty in Hq. apply negb_false_iff, String.eqb_eq in Hq. exact Hq. }
      rewrite fetchMovies_try_browse by exact Hq. unfold lookup_page.
      destruct (fetchWithRetry _ _ _ _ _ (loading m)) as [[data1 | e] m1];
        [| intros H; exfalso; exact (Hfailed _ _ H)].
      destruct (examine data1) as [| shown1 | e] eqn:Hex1;
        [intros H; discriminate H | | intros H; exfalso; exact (Hfailed _ _ H)].
      destruct (examine_Records_inv _ _ Hex1) as (records1 & Hpage1 & Hmap1).
      destruct (fetchWithRetry _ _ _ _ _ m1) as [[data2 | e] m2] eqn:Hlookup2;
        [| intros H; exfalso; exact (Hfailed _ _ H)].
      destruct (examine data2) as [| shown2 | e] eqn:Hex2;
        [| | intros H; exfalso; exact (Hfailed _ _ H)]; intros _;
        exists data1, m1, records1, shown1;
        (split; [reflexivity |]); (split; [exact Hpage1 |]); (split; [exact Hmap1 |]);
        right; (split; [exact Hquery |]); exists data2, m2; (split; [exact Hlookup2 |]).
      * left. split; [apply examine_NoRecords_inv; exact Hex2 | reflexivity].
      * right. destruct (examine_Records_inv _ _ Hex2) as (records2 & Hpage2 & Hmap2).
        exists records2, shown2.
        split; [exact Hpage2 |]. split; [exact Hmap2 | reflexivity].
Qed.

Lemma fetchMovies_concatenates_witness :
  length (movieList (app (snd (fetchMovies (Some "token") full_catalogue "" boot)))) = 40%nat /\
  length (movieList (app (snd (fetchMovies (Some "token") steady "batman" boot)))) = 1%nat.
Proof.
  split.
  - refine (proj2 (proj2 (proj2
             (proj1 (proj2 (fetchMovies_concatenates (Some "token") full_catalogue "" boot
                              eq_refl))
                (Some (body_of (twenty 1))) _ (twenty 1) _
                (Some (body_of (twenty 21))) _ (twenty 21) _
                eq_refl eq_refl (conj eq_refl _) eq_refl
                eq_refl (conj eq_refl _) eq_refl))) eq_refl eq_refl);
      discriminate.
  - refine (f_equal (@length json)
             (proj1 (proj1 (fetchMovies_concatenates (Some "token") steady "batman" boot
                              eq_refl)
                       (Some (body_of [sample_movie])) _ [sample_movie] _
                       _ eq_refl (conj eq_refl _) eq_refl)));
      discriminate.
Defined.

(** ** The retry loop for any budget *)

Section RetryRuns.

Variable net : world.
Variables (url : string) (options : request_options) (retries delay : Z).

Lemma attempts_needed_bounds k budget :
  (1 <= budget -> 1 <= attempts_needed net url k budget <= budget)%nat.
Proof.
  revert k. induction budget as [| rest IH]; intros k Hb; [lia |].
  simpl. destruct (outcome (net k url)); [lia |].
  destruct rest as [| rest']; [lia |].
  specialize (IH (S k)). lia.
Qed.

(** The loop from [i], with at least one attempt left: its result is the
    outcome of the last attempt it makes, its trace the attempts with a
    timer between two of them. *)
Lemma retry_from_run i m :
  i < retries ->
  retry_from net url options retries delay i m =
  (outcome (net (calls m + (attempts_needed net url (calls m) (Z.to_nat (retries - i)) - 1))%nat url),
   mkMachine (app m)
     (trace m ++ retry_trace url options delay
                   (attempts_needed net url (calls m) (Z.to_nat (retries - i))))
     (calls m + attempts_needed net url (calls m) (Z.to_nat (retries - i)))).
Proof.
  remember (Z.to_nat (retries - i)) as b eqn:Hb.
  revert i m Hb. induction b as [| b IH]; intros i m Hb Hi; [lia |].
  cbn [attempts_needed].
  destruct (outcome (net (calls m) url)) as [v | e] eqn:Hout.
  - rewrite (retry_from_success net url options retries delay i m v Hi Hout).
    unfold after_fetch. cbn [retry_trace retries_after].
    replace (calls m + (1 - 1))%nat with (calls m) by lia.
    replace (calls m + 1)%nat with (S (calls m)) by lia.
    rewrite Hout. reflexivity.
  - destruct b as [| b'].
    + rewrite (retry_from_last net url options retries delay i m e) by (lia || exact Hout).
      unfold after_fetch. cbn [retry_trace retries_after].
      replace (calls m + (1 - 1))%nat with (calls m) by lia.
      replace (calls m + 1)%nat with (S (calls m)) by lia.
      rewrite Hout. reflexivity.
    + rewrite (retry_from_again net url options retries delay i m e) by (lia || exact Hout).
      rewrite (IH (i + 1) (after_sleep delay (after_fetch url options m))) by lia.
      cbn [after_sleep after_fetch app trace calls].
      pose proof (attempts_needed_bounds (S (calls m)) (S b') ltac:(lia)) as Hn.
      destruct (attempts_needed net url (S (calls m)) (S b')) as [| n] eqn:Hneed; [lia |].
      cbn [retry_trace retries_after].
      replace (S (calls m) + (S n - 1))%nat with (calls m + (S (S n) - 1))%nat by lia.
      replace (S (calls m) + S n)%nat with (calls m + S (S n))%nat by lia.
      rewrite <- !app_assoc. reflexivity.
Qed.

(** If every attempt left fails, all of them are made. *)
Lemma attempts_needed_all_fail k budget :
  (forall j, (j < budget)%nat -> exists e, outcome (net (k + j)%nat url) = Threw e) ->
  attempts_needed net url k budget = budget.
Proof.
  revert k. induction budget as [| rest IH]; intros k Hfail; [reflexivity |].
  cbn [attempts_needed].
  destruct (Hfail 0%nat ltac:(lia)) as [e He].
  replace (k + 0)%nat with k in He by lia. rewrite He.
  destruct rest as [| rest']; [reflexivity |].
  f_equal. apply IH. intros j Hj.
  destruct (Hfail (S j) ltac:(lia)) as [e' He'].
  exists e'. replace (S k + j)%nat with (k + S j)%nat by lia. exact He'.
Qed.

(** If the attempt after [pos] failures succeeds, the loop stops there. *)
Lemma attempts_needed_first_success k budget pos v :
  (pos < budget)%nat ->
  (forall j, (j < pos)%nat -> exists e, outcome (net (k + j)%nat url) = Threw e) ->
  outcome (net (k + pos)%nat url) = Normal v ->
  attempts_needed net url k budget = S pos.
Proof.
  revert k budget. induction pos as [| pos IH]; intros k budget Hlt Hfail Hv.
  - destruct budget as [| rest]; [lia |]. cbn [attempts_needed].
    replace (k + 0)%nat with k in Hv by lia. rewrite Hv. reflexivity.
  - destruct budget as [| rest]; [lia |]. cbn [attempts_needed].
    destruct (Hfail 0%nat ltac:(lia)) as [e He].
    replace (k + 0)%nat with k in He by lia. rewrite He.
    destruct rest as [| rest']; [lia |].
    f_equal. apply IH.
    + lia.
    + intros j Hj. destruct (Hfail (S j) ltac:(lia)) as [e' He'].
      exists e'. replace (S k + j)%nat with (k + S j)%nat by lia. exact He'.
    + replace (S k + pos)%nat with (k + S pos)%nat by lia. exact Hv.
Qed.

End RetryRuns.

Lemma fetched_retry_trace url options delay n :
  fetched (retry_trace url options delay n) = repeat url n.
Proof.
  destruct n as [| k]; [reflexivity |]. unfold retry_trace, fetched. simpl. f_equal.
  induction k as [| k IH]; [reflexivity |]. simpl. f_equal. exact IH.
Qed.

Lemma delays_retry_trace url options delay n :
  delays (retry_trace url options delay n) = repeat delay (n - 1).
Proof.
  destruct n as [| k]; [reflexivity |]. unfold retry_trace, delays. simpl.
  rewrite Nat.sub_0_r.
  induction k as [| k IH]; [reflexivity |]. simpl. f_equal. exact IH.
Qed.

Lemma complaints_retry_trace url options delay n :
  complaints (retry_trace url options delay n) = [].
Proof.
  destruct n as [| k]; [reflexivity |]. unfold retry_trace, complaints. simpl.
  induction k as [| k IH]; [reflexivity |]. simpl. exact IH.
Qed.

Lemma requests_retry_trace url options delay n :
  requests (retry_trace url options delay n) = repeat (url, options) n.
Proof.
  destruct n as [| k]; [reflexivity |]. unfold retry_trace, requests. simpl. f_equal.
  induction k as [| k IH]; [reflexivity |]. simpl. f_equal. exact IH.
Qed.

(** X1. With a budget of at least one attempt, [fetchWithRetry] stops at
    the first attempt that succeeds or at the last one allowed: it makes
    between one and [retries] requests, its result is the outcome of the
    last request made (a value or that attempt's error), its trace is the
    requests with one timer between two of them, and the component's state
    is not touched. *)
Theorem fetchWithRetry_run net url options retries delay m :
  0 < retries ->
  (1 <= attempts_needed net url (calls m) (Z.to_nat retries) <= Z.to_nat retries)%nat /\
  fetchWithRetry net url options retries delay m =
  (outcome (net (calls m + (attempts_needed net url (calls m) (Z.to_nat retries) - 1))%nat url),
   mkMachine (app m)
     (trace m ++ retry_trace url options delay
                   (attempts_needed net url (calls m) (Z.to_nat retries)))
     (calls m + attempts_needed net url (calls m) (Z.to_nat retries))).
Proof.
  intros Hpos. split.
  - apply attempts_needed_bounds. lia.
  - unfold fetchWithRetry. rewrite retry_from_run by lia.
    rewrite Z.sub_0_r. reflexivity.
Qed.

Lemma fetchWithRetry_run_witness :
  fetchWithRetry flaky "u" (API_OPTIONS None) 5 250 boot =
  (Normal (Some (body_of [sample_movie])),
   mkMachine initial_app
     [EvFetch "u" (API_OPTIONS None); EvTimeout 250;
      EvFetch "u" (API_OPTIONS None); EvTimeout 250;
      EvFetch "u" (API_OPTIONS None)] 3).
Proof.
  rewrite (proj2 (fetchWithRetry_run flaky "u" (API_OPTIONS None) 5 250 boot ltac:(lia))).
  reflexivity.
Defined.

(** X2. If every one of the [retries] attempts fails, [fetchWithRetry]
    makes all of them, sleeps [retries - 1] times and throws the error of
    the last attempt. *)
Theorem fetchWithRetry_exhausted net url options retries delay m :
  0 < retries ->
  (forall j, (j < Z.to_nat retries)%nat ->
     exists e, outcome (net (calls m + j)%nat url) = Threw e) ->
  fst (fetchWithRetry net url options retries delay m) =
    outcome (net (calls m + (Z.to_nat retries - 1))%nat url) /\
  (exists e, fst (fetchWithRetry net url options retries delay m) = Threw e) /\
  calls (snd (fetchWithRetry net url options retries delay m)) =
    (calls m + Z.to_nat retries)%nat /\
  fetched (trace (snd (fetchWithRetry net url options retries delay m))) =
    (fetched (trace m) ++ repeat url (Z.to_nat retries))%list /\
  delays (trace (snd (fetchWithRetry net url options retries delay m))) =
    (delays (trace m) ++ repeat delay (Z.to_nat retries - 1))%list.
Proof.
  intros Hpos Hfail. unfold fetchWithRetry. rewrite retry_from_run by lia.
  rewrite Z.sub_0_r, (attempts_needed_all_fail net url _ _ Hfail).
  cbn [fst snd trace calls].
  rewrite fetched_app, delays_app, fetched_retry_trace, delays_retry_trace.
  repeat split. apply Hfail. lia.
Qed.

Lemma fetchWithRetry_exhausted_witness :
  fst (fetchWithRetry down "u" (API_OPTIONS None) 5 250 boot) =
    Threw (Error "HTTP error! status: 504") /\
  delays (trace (snd (fetchWithRetry down "u" (API_OPTIONS None) 5 250 boot))) =
    [250; 250; 250; 250].
Proof.
  assert (Hfail : forall j, (j < Z.to_nat 5)%nat ->
                    exists e, outcome (down (calls boot + j)%nat "u") = Threw e)
    by (intros j _; eexists; reflexivity).
  destruct (fetchWithRetry_exhausted down "u" (API_OPTIONS None) 5 250 boot
              ltac:(lia) Hfail) as (Hres & _ & _ & _ & Hdelays).
  split; [rewrite Hres; reflexivity | rewrite Hdelays; reflexivity].
Defined.

(** X3. If the first [pos] attempts fail and the next one, still within the
    budget, succeeds with [v], [fetchWithRetry] returns [v] after exactly
    [pos + 1] requests and [pos] timers; the attempts left are not made. *)
Theorem fetchWithRetry_first_success net url options retries delay m pos v :
  (pos < Z.to_nat retries)%nat ->
  (forall j, (j < pos)%nat -> exists e, outcome (net (calls m + j)%nat url) = Threw e) ->
  outcome (net (calls m + pos)%nat url) = Normal v ->
  fetchWithRetry net url options retries delay m =
  (Normal v,
   mkMachine (app m) (trace m ++ retry_trace url options delay (S pos))
     (calls m + S pos)) /\
  fetched (retry_trace url options delay (S pos)) = repeat url (S pos) /\
  delays (retry_trace url options delay (S pos)) = repeat delay pos.
Proof.
  intros Hlt Hfail Hv. split; [| split].
  - unfold fetchWithRetry. rewrite retry_from_run by lia.
    rewrite Z.sub_0_r, (attempts_needed_first_success net url _ _ pos v Hlt Hfail Hv).
    replace (calls m + (S pos - 1))%nat with (calls m + pos)%nat by lia.
    rewrite Hv. reflexivity.
  - apply fetched_retry_trace.
  - rewrite delays_retry_trace. f_equal. lia.
Qed.

Lemma fetchWithRetry_first_success_witness :
  fst (fetchWithRetry flaky "u" (API_OPTIONS None) 7 250 boot) =
    Normal (Some (body_of [sample_movie])) /\
  calls (snd (fetchWithRetry flaky "u" (API_OPTIONS None) 7 250 boot)) = 3%nat.
Proof.
  assert (Hfail : forall j, (j < 2)%nat ->
                    exists e, outcome (flaky (calls boot + j)%nat "u") = Threw e).
  { intros j Hj. destruct j as [| [| j]]; [eexists; reflexivity .. | lia]. }
  rewrite (proj1 (fetchWithRetry_first_success flaky "u" (API_OPTIONS None) 7 250 boot 2
                    (Some (body_of [sample_movie])) ltac:(simpl; lia) Hfail eq_refl)).
  split; reflexivity.
Defined.

(** ** The trace of a whole run *)

Lemma lookup_page_run API_KEY net query page m :
  exists n,
    (1 <= n <= 3)%nat /\
    snd (lookup_page API_KEY net query page m) =
    mkMachine (app m)
      (trace m ++ retry_trace (endpoint query page) (API_OPTIONS API_KEY) 1000 n)
      (calls m + n).
Proof.
  unfold lookup_page, fetchWithRetry. rewrite retry_from_run by lia.
  eexists. split; [| reflexivity].
  apply (attempts_needed_bounds net (endpoint query page) (calls m) 3). lia.
Qed.

(** The events one run adds: the attempts at page 1, then those at page 2,
    then at most one line on the console, which comes with the message the
    [catch] block shows and an empty list. *)
Lemma fetchMovies_trace API_KEY net query m :
  exists n1 n2 tail,
    (n1 <= 3)%nat /\ (n2 <= 3)%nat /\
    (key_missing API_KEY = true -> n1 = 0%nat) /\
    (nonempty query = true -> n2 = 0%nat) /\
    trace (snd (fetchMovies API_KEY net query m)) =
      (trace m ++ retry_trace (endpoint query 1) (API_OPTIONS API_KEY) 1000 n1
               ++ retry_trace (endpoint query 2) (API_OPTIONS API_KEY) 1000 n2
               ++ tail)%list /\
    (tail = [] \/
     exists e,
       tail = [EvConsoleError "Error fetching movies:" e] /\
       errorMessage (app (snd (fetchMovies API_KEY net query m))) = error_text e /\
       movieList (app (snd (fetchMovies API_KEY net query m))) = []).
Proof.
  destruct (key_missing API_KEY) eqn:Hkey.
  { rewrite fetchMovies_unconfigured by exact Hkey.
    exists 0%nat, 0%nat, []. simpl. rewrite app_nil_r.
    repeat split; try lia. left. reflexivity. }
  rewrite fetchMovies_configured by exact Hkey.
  destruct (lookup_page_run API_KEY net query 1 (loading m)) as (n1 & Hn1 & Hrun1).
  destruct (nonempty query) eqn:Hq.
  - rewrite fetchMovies_try_search by exact Hq.
    destruct (lookup_page API_KEY net query 1 (loading m)) as [[data | e] m1];
      simpl in Hrun1; subst m1.
    + exists n1, 0%nat.
      destruct (examine data) as [| shown | e].
      * exists []. simpl. rewrite app_nil_r. repeat split; try lia; try discriminate.
        left. reflexivity.
      * exists []. simpl. rewrite app_nil_r. repeat split; try lia; try discriminate.
        left. reflexivity.
      * exists [EvConsoleError "Error fetching movies:" e]. simpl.
        rewrite <- app_assoc. repeat split; try lia; try discriminate.
        right. exists e. repeat split.
    + exists n1, 0%nat, [EvConsoleError "Error fetching movies:" e]. simpl.
      rewrite <- app_assoc. repeat split; try lia; try discriminate.
      right. exists e. repeat split.
  - rewrite fetchMovies_try_browse by exact Hq.
    destruct (lookup_page API_KEY net query 1 (loading m)) as [[data1 | e] m1];
      simpl in Hrun1; subst m1.
    + destruct (examine data1) as [| shown1 | e].
      * exists n1, 0%nat, []. simpl. rewrite app_nil_r.
        repeat split; try lia; try discriminate. left. reflexivity.
      * match goal with
        | |- context [lookup_page API_KEY net query 2 ?m1] =>
            destruct (lookup_page_run API_KEY net query 2 m1) as (n2 & Hn2 & Hrun2);
            destruct (lookup_page API_KEY net query 2 m1) as [[data2 | e] m2]
        end; simpl in Hrun2; subst m2.
        -- exists n1, n2.
           destruct (examine data2) as [| shown2 | e].
           ++ exists []. simpl. rewrite app_nil_r, <- app_assoc.
              repeat split; try lia; try discriminate. left. reflexivity.
           ++ exists []. simpl. rewrite app_nil_r, <- app_assoc.
              repeat split; try lia; try discriminate. left. reflexivity.
           ++ exists [EvConsoleError "Error fetching movies:" e]. simpl.
              rewrite <- !app_assoc. repeat split; try lia; try discriminate.
              right. exists e. repeat split.
        -- exists n1, n2, [EvConsoleError "Error fetching movies:" e]. simpl.
           rewrite <- !app_assoc. repeat split; try lia; try discriminate.
           right. exists e. repeat split.
      * exists n1, 0%nat, [EvConsoleError "Error fetching movies:" e]. simpl.
        rewrite <- app_assoc. repeat split; try lia; try discriminate.
        right. exists e. repeat split.
    + exists n1, 0%nat, [EvConsoleError "Error fetching movies:" e]. simpl.
      rewrite <- app_assoc. repeat split; try lia; try discriminate.
      right. exists e. repeat split.
Qed.

(** ** What a run leaves behind *)

(** A run never throws, ends with [isLoading] off, and writes neither the
    search term nor the selected movie. *)
Lemma fetchMovies_idle API_KEY net query m :
  fst (fetchMovies API_KEY net query m) = Normal tt /\
  isLoading (app (snd (fetchMovies API_KEY net query m))) = false /\
  searchTerm (app (snd (fetchMovies API_KEY net query m))) = searchTerm (app m) /\
  selectedMovie (app (snd (fetchMovies API_KEY net query m))) = selectedMovie (app m).
Proof.
  destruct (key_missing API_KEY) eqn:Hkey.
  { rewrite fetchMovies_unconfigured by exact Hkey. repeat split. }
  rewrite fetchMovies_configured by exact Hkey.
  destruct (lookup_page_run API_KEY net query 1 (loading m)) as (n1 & _ & Hrun1).
  destruct (nonempty query) eqn:Hq.
  - rewrite fetchMovies_try_search by exact Hq.
    destruct (lookup_page API_KEY net query 1 (loading m)) as [[data | e] m1];
      simpl in Hrun1; subst m1; [destruct (examine data) |]; repeat split.
  - rewrite fetchMovies_try_browse by exact Hq.
    destruct (lookup_page API_KEY net query 1 (loading m)) as [[data1 | e] m1];
      simpl in Hrun1; subst m1; [| repeat split].
    destruct (examine data1) as [| shown1 | e]; [repeat split | | repeat split].
    match goal with
    | |- context [lookup_page API_KEY net query 2 ?m1] =>
        destruct (lookup_page_run API_KEY net query 2 m1) as (n2 & _ & Hrun2);
        destruct (lookup_page API_KEY net query 2 m1) as [[data2 | e] m2]
    end; simpl in Hrun2; subst m2; [destruct (examine data2) |]; repeat split.
Qed.

(** X5. All the timers of a run are of one second, and there are at most
    two of them for a search and four when browsing; without a credential
    there is none. *)
Theorem fetchMovies_waits API_KEY net query m :
  exists k,
    delays (trace (snd (fetchMovies API_KEY net query m))) =
      (delays (trace m) ++ repeat 1000 k)%list /\
    (k <= 4)%nat /\
    (query <> "" -> (k <= 2)%nat) /\
    (key_missing API_KEY = true -> k = 0%nat).
Proof.
  destruct (fetchMovies_trace API_KEY net query m)
    as (n1 & n2 & tail & Hn1 & Hn2 & Hmissing & Hsearch & Htrace & Htail).
  exists ((n1 - 1) + (n2 - 1))%nat. rewrite Htrace, !delays_app, !delays_retry_trace.
  assert (Hnone : delays tail = []).
  { destruct Htail as [-> | (e & -> & _)]; reflexivity. }
  rewrite Hnone, app_nil_r, repeat_app. repeat split.
  - lia.
  - intros Hquery. rewrite Hsearch; [lia |].
    unfold nonempty. apply negb_true_iff, String.eqb_neq. exact Hquery.
  - intros Hkey. rewrite (Hmissing Hkey).
    assert (H2 : trace (snd (fetchMovies API_KEY net query m)) = trace m)
      by (rewrite fetchMovies_unconfigured by exact Hkey; reflexivity).
    rewrite Htrace, (Hmissing Hkey) in H2. simpl in H2.
    assert (Hlen : length (trace m ++ retry_trace (endpoint query 2) (API_OPTIONS API_KEY) 1000 n2
                             ++ tail) = length (trace m)) by (rewrite H2; reflexivity).
    rewrite !length_app in Hlen.
    destruct n2 as [| n2']; [reflexivity |]. simpl in Hlen. lia.
Qed.

(** X6. The console gets at most one line per run, and only from the
    [catch] block: the error logged is the one whose message is classified
    and shown, and the list is then empty.  A run that ends with a list,
    with the missing-credential message or with a no-results message logs
    nothing. *)
Theorem fetchMovies_console API_KEY net query m :
  (complaints (trace (snd (fetchMovies API_KEY net query m))) = complaints (trace m) \/
   exists e,
     complaints (trace (snd (fetchMovies API_KEY net query m))) =
       (complaints (trace m) ++ [e])%list /\
     errorMessage (app (snd (fetchMovies API_KEY net query m))) = error_text e /\
     movieList (app (snd (fetchMovies API_KEY net query m))) = []) /\
  (In (errorMessage (app (snd (fetchMovies API_KEY net query m))))
      [EmptyString; "API key is missing. Please check your configuration.";
       "No movies found for your search"; "No movies available"] ->
   complaints (trace (snd (fetchMovies API_KEY net query m))) = complaints (trace m)).
Proof.
  destruct (fetchMovies_trace API_KEY net query m)
    as (n1 & n2 & tail & _ & _ & _ & _ & Htrace & Htail).
  assert (Hlog : complaints (trace (snd (fetchMovies API_KEY net query m))) =
                 (complaints (trace m) ++ complaints tail)%list).
  { rewrite Htrace. unfold complaints at 1. rewrite !flat_map_app.
    fold (complaints (trace m)) (complaints tail).
    fold (complaints (retry_trace (endpoint query 1) (API_OPTIONS API_KEY) 1000 n1)).
    fold (complaints (retry_trace (endpoint query 2) (API_OPTIONS API_KEY) 1000 n2)).
    rewrite !complaints_retry_trace. reflexivity. }
  rewrite Hlog. destruct Htail as [-> | (e & -> & Hmsg & Hlist)].
  - simpl. rewrite app_nil_r. split; [left; reflexivity | reflexivity].
  - split.
    + right. exists e. repeat split; assumption.
    + rewrite Hmsg. unfold error_text. intros Hin. exfalso.
      destruct (includes (err_message e) "401");
        [| destruct (includes (err_message e) "429")];
        simpl in Hin; repeat (destruct Hin as [Hin | Hin]; [discriminate Hin |]);
        exact Hin.
Qed.

(** X7. Every request of a run goes out with the same options, the ones
    built from the credential; and a request goes out only if the
    credential is a non-empty string, so the header is [Bearer] followed by
    that string and never [Bearer undefined]. *)
Theorem fetchMovies_requests_authorised API_KEY net query m :
  exists n1 n2,
    requests (trace (snd (fetchMovies API_KEY net query m))) =
      (requests (trace m)
       ++ repeat (endpoint query 1, API_OPTIONS API_KEY) n1
       ++ repeat (endpoint query 2, API_OPTIONS API_KEY) n2)%list /\
    ((1 <= n1 + n2)%nat ->
     exists key,
       API_KEY = Some key /\ key <> "" /\
       API_OPTIONS API_KEY =
         mkOptions "GET" [("accept", "application/json");
                          ("Authorization", "Bearer " ++ key)]).
Proof.
  destruct (key_missing API_KEY) eqn:Hkey.
  - exists 0%nat, 0%nat. rewrite fetchMovies_unconfigured by exact Hkey. simpl.
    rewrite app_nil_r. split; [reflexivity | lia].
  - destruct (fetchMovies_trace API_KEY net query m)
      as (n1 & n2 & tail & _ & _ & _ & _ & Htrace & Htail).
    exists n1, n2. split.
    + rewrite Htrace. unfold requests at 1. rewrite !flat_map_app.
      fold (requests (trace m)) (requests tail).
      fold (requests (retry_trace (endpoint query 1) (API_OPTIONS API_KEY) 1000 n1)).
      fold (requests (retry_trace (endpoint query 2) (API_OPTIONS API_KEY) 1000 n2)).
      rewrite !requests_retry_trace.
      assert (Hnone : requests tail = [])
        by (destruct Htail as [-> | (e & -> & _)]; reflexivity).
      rewrite Hnone, app_nil_r. reflexivity.
    + intros _. unfold key_missing in Hkey. destruct API_KEY as [key |]; [| discriminate].
      exists key. repeat split.
      unfold nonempty in Hkey. rewrite negb_involutive in Hkey.
      apply String.eqb_neq. exact Hkey.
Qed.

(** ** Status codes *)

Lemma status_codes_checked : forallb code_matching_agrees (seq 100 900) = true.
Proof. vm_compute. reflexivity. Qed.

(** For a three-digit status the handler's substring tests on the message
    are tests on the status. *)
Lemma status_code_matching code :
  100 <= code <= 999 ->
  includes (status_message code) "401" = (code =? 401) /\
  includes (status_message code) "429" = (code =? 429).
Proof.
  intros Hcode. pose proof status_codes_checked as Hall.
  rewrite forallb_forall in Hall.
  assert (Hin : In (Z.to_nat code) (seq 100 900)) by (apply in_seq; lia).
  apply Hall in Hin. unfold code_matching_agrees in Hin.
  rewrite Z2Nat.id in Hin by lia.
  apply andb_true_iff in Hin. destruct Hin as [H401 H429].
  split; apply eqb_prop; assumption.
Qed.

(** X8. If the provider answers the three attempts at page 1 with a
    response that is not [ok] and has the three-digit status [code], the
    run makes exactly those three requests, a second apart, and ends with
    an empty list and the message for that status: the credential message
    for 401, the rate-limit message for 429, the try-again-later message
    for every other status. *)
Theorem fetchMovies_refused_status API_KEY net query m code :
  key_missing API_KEY = false ->
  100 <= code <= 999 ->
  (forall j, (j < 3)%nat ->
     exists r, net (calls m + j)%nat (endpoint query 1) = Responded r /\
               ok r = false /\ status r = code) ->
  errorMessage (app (snd (fetchMovies API_KEY net query m))) =
    (if code =? 401 then "Invalid API key. Please check your TMDB API configuration."
     else if code =? 429 then "Rate limit exceeded. Please try again later."
     else "Error fetching movies. Please try again later.") /\
  movieList (app (snd (fetchMovies API_KEY net query m))) = [] /\
  fetched (trace (snd (fetchMovies API_KEY net query m))) =
    (fetched (trace m) ++ repeat (endpoint query 1) 3)%list /\
  delays (trace (snd (fetchMovies API_KEY net query m))) =
    (delays (trace m) ++ [1000; 1000])%list /\
  complaints (trace (snd (fetchMovies API_KEY net query m))) =
    (complaints (trace m) ++ [Error (status_message code)])%list.
Proof.
  intros Hkey Hcode Hnet.
  assert (Hout : forall j, (j < 3)%nat ->
            outcome (net (calls (loading m) + j)%nat (endpoint query 1)) =
            Threw (Error (status_message code))).
  { intros j Hj. destruct (Hnet j Hj) as (r & Hr & Hok & Hstatus).
    cbn [loading calls]. rewrite Hr. unfold outcome. rewrite Hok, Hstatus. reflexivity. }
  assert (Hlook : lookup_page API_KEY net query 1 (loading m) =
            (Threw (Error (status_message code)),
             mkMachine (app (loading m))
               (trace m ++ retry_trace (endpoint query 1) (API_OPTIONS API_KEY) 1000 3)
               (calls m + 3))).
  { unfold lookup_page, fetchWithRetry. rewrite retry_from_run by lia.
    change (Z.to_nat (3 - 0)) with 3%nat.
    rewrite (attempts_needed_all_fail net (endpoint query 1) (calls (loading m)) 3)
      by (intros j Hj; eexists; apply Hout; exact Hj).
    rewrite Hout by lia. reflexivity. }
  destruct (status_code_matching code Hcode) as [H401 H429].
  assert (Htext : error_text (Error (status_message code)) =
            (if code =? 401 then "Invalid API key. Please check your TMDB API configuration."
             else if code =? 429 then "Rate limit exceeded. Please try again later."
             else "Error fetching movies. Please try again later.")).
  { unfold error_text. cbn [err_message Error]. rewrite H401, H429. reflexivity. }
  rewrite fetchMovies_configured by exact Hkey.
  assert (Htry : fetchMovies_try API_KEY net query (loading m) =
            (Threw (Error (status_message code)),
             mkMachine (app (loading m))
               (trace m ++ retry_trace (endpoint query 1) (API_OPTIONS API_KEY) 1000 3)
               (calls m + 3))).
  { destruct (nonempty query) eqn:Hq.
    - rewrite fetchMovies_try_search by exact Hq. rewrite Hlook. reflexivity.
    - rewrite fetchMovies_try_browse by exact Hq. rewrite Hlook. reflexivity. }
  rewrite Htry. cbn [snd settled refused complained app trace errorMessage movieList].
  rewrite Htext. split; [reflexivity |]. split; [reflexivity |].
  unfold fetched, delays, complaints. rewrite !flat_map_app. simpl.
  rewrite !app_nil_r. repeat split.
Qed.

Lemma fetchMovies_refused_status_witness :
  errorMessage (app (snd (fetchMovies (Some "token") (fun _ _ => refusal 429) "batman" boot)))
    = "Rate limit exceeded. Please try again later." /\
  errorMessage (app (snd (fetchMovies (Some "token") (fun _ _ => refusal 404) "" boot)))
    = "Error fetching movies. Please try again later.".
Proof.
  split.
  - refine (proj1 (fetchMovies_refused_status (Some "token") (fun _ _ => refusal 429)
                     "batman" boot 429 eq_refl ltac:(lia) _)).
    intros j _. exists (mkResponse false 429 (Normal JNull)). repeat split.
  - refine (proj1 (fetchMovies_refused_status (Some "token") (fun _ _ => refusal 404)
                     "" boot 404 eq_refl ltac:(lia) _)).
    intros j _. exists (mkResponse false 404 (Normal JNull)). repeat split.
Defined.

(** ** The records in the list *)








(** ** The encoding of the query *)

Lemma encodeURIComponent_cons c s :
  encodeURIComponent (String c s) = escape_unit c ++ encodeURIComponent s.
Proof. reflexivity. Qed.

Lemma string_all_append p s t :
  string_all p (s ++ t) = string_all p s && string_all p t.
Proof.
  induction s as [| c s IH]; [reflexivity |]. simpl. rewrite IH. apply andb_assoc.
Qed.

Lemma string_all_weaken (p q : ascii -> bool) s :
  (forall c, p c = true -> q c = true) ->
  string_all p s = true -> string_all q s = true.
Proof.
  intros Hpq. induction s as [| c s IH]; [reflexivity |]. simpl.
  rewrite !andb_true_iff. intros [Hc Hs]. split; [apply Hpq; exact Hc | apply IH; exact Hs].
Qed.

Lemma uri_safe_no_delimiter c : uri_safe c = true -> uri_delimiter c = false.
Proof. destruct c as [[] [] [] [] [] [] [] []]; vm_compute; congruence. Qed.

(** Unreserved characters are left alone. *)
Lemma encodeURIComponent_plain query :
  string_all uri_unreserved query = true ->
  encodeURIComponent query = query.
Proof.
  induction query as [| c s IH]; [reflexivity |].
  cbn [string_all]. rewrite andb_true_iff. intros [Hc Hs].
  cbn [encodeURIComponent]. rewrite Hc, (IH Hs). reflexivity.
Qed.

Lemma append_assoc_string (a b c : string) : (a ++ b) ++ c = a ++ b ++ c.
Proof. induction a as [| x a IH]; [reflexivity |]. simpl. rewrite IH. reflexivity. Qed.

Lemma append_empty_right (s : string) : s ++ "" = s.
Proof. induction s as [| c s IH]; [reflexivity |]. simpl. rewrite IH. reflexivity. Qed.

(** X11. A search text made only of letters, digits and the marks
    [- _ . ! ~ * ' ( )] is sent as typed. *)
Theorem endpoint_plain_query query page :
  query <> "" ->
  string_all uri_unreserved query = true ->
  endpoint query page =
    "https://api.themoviedb.org/3/search/movie?query=" ++ query
      ++ "&language=en-US&page=" ++ Z_to_string page.
Proof.
  intros Hquery Hplain. unfold endpoint, nonempty.
  replace (String.eqb query "") with false
    by (symmetry; apply String.eqb_neq; exact Hquery).
  rewrite (encodeURIComponent_plain query Hplain). reflexivity.
Qed.

Lemma endpoint_plain_query_witness :
  endpoint "The_Dark-Knight.2008" 1 =
    "https://api.themoviedb.org/3/search/movie?query=The_Dark-Knight.2008&language=en-US&page=1".
Proof.
  apply (endpoint_plain_query "The_Dark-Knight.2008" 1); [discriminate | reflexivity].
Defined.

(** ** The view after a run *)

(** X4. A run of [fetchMovies] never throws, whatever the credential, the
    query and the network: every failure ends in the [catch] block.  It
    always ends with the spinner off, and it writes neither the search
    term nor the selected movie, so the heading and the modal on screen
    are the same after the run as before. *)
Theorem fetchMovies_settles API_KEY net query m :
  fst (fetchMovies API_KEY net query m) = Normal tt /\
  isLoading (app (snd (fetchMovies API_KEY net query m))) = false /\
  searchTerm (app (snd (fetchMovies API_KEY net query m))) = searchTerm (app m) /\
  selectedMovie (app (snd (fetchMovies API_KEY net query m))) = selectedMovie (app m) /\
  heading (app (snd (fetchMovies API_KEY net query m))) = heading (app m) /\
  modal (app (snd (fetchMovies API_KEY net query m))) = modal (app m).
Proof.
  destruct (fetchMovies_idle API_KEY net query m) as (Hfst & Hidle & Hterm & Hsel).
  unfold heading, modal. rewrite Hterm, Hsel. repeat split; assumption.
Qed.

(** ** The search box *)

(** X15. [App] passes the search term as [searchTerm] and [Search] reads
    [searchterm]: whatever the state, the [value] the input receives is
    [undefined], so the box never shows the state's search term.  The
    change handler does reach the state: it sets the search term to the
    typed text and nothing else. *)
Theorem search_box_uncontrolled a :
  box_value (App_search a) = None /\
  prop_lookup "searchTerm"
    [("searchTerm", PData (JStr (searchTerm a))); ("setSearchTerm", PCallback setSearchTerm)]
    = Some (PData (JStr (searchTerm a))) /\
  forall text m,
    box_onChange (App_search a) text m =
    (Normal tt,
     mkMachine
       (mkApp text (movieList (app m)) (errorMessage (app m)) (isLoading (app m))
              (selectedMovie (app m)))
       (trace m) (calls m)).
Proof.
  repeat split.
Qed.

Lemma type_text_step API_KEY net text m :
  type_text API_KEY net text m =
  if String.eqb text (searchTerm (app m))
  then (Normal tt, typed text m)
  else fetchMovies API_KEY net text (typed text m).
Proof. reflexivity. Qed.

(** X16. Typing fetches for the text typed: after a change to a different
    text the state's search term is that text, the run has ended, and
    every request made went to the endpoints of that text, page 1 then
    page 2, the latter never for a non-empty text.  A change to the text
    already in the state fetches nothing. *)
Theorem type_text_fetches API_KEY net text m :
  (text <> searchTerm (app m) ->
   fst (type_text API_KEY net text m) = Normal tt /\
   searchTerm (app (snd (type_text API_KEY net text m))) = text /\
   isLoading (app (snd (type_text API_KEY net text m))) = false /\
   exists n1 n2,
     (n1 <= 3)%nat /\ (n2 <= 3)%nat /\ (text <> "" -> n2 = 0%nat) /\
     fetched (trace (snd (type_text API_KEY net text m))) =
       (fetched (trace m) ++ repeat (endpoint text 1) n1
                          ++ repeat (endpoint text 2) n2)%list) /\
  (text = searchTerm (app m) ->
   fst (type_text API_KEY net text m) = Normal tt /\
   trace (snd (type_text API_KEY net text m)) = trace m /\
   app (snd (type_text API_KEY net text m)) = app m).
Proof.
  rewrite type_text_step. split.
  - intros Hdiff.
    assert (Hneq : String.eqb text (searchTerm (app m)) = false)
      by (apply String.eqb_neq; exact Hdiff).
    rewrite Hneq.
    destruct (fetchMovies_idle API_KEY net text (typed text m))
      as (Hfst & Hidle & Hterm & _).
    destruct (fetchMovies_trace API_KEY net text (typed text m))
      as (n1 & n2 & tail & Hn1 & Hn2 & _ & Hsearch & Htrace & Htail).
    rewrite Hfst, Hterm, Hidle. repeat split.
    exists n1, n2. split; [exact Hn1 |]. split; [exact Hn2 |]. split.
    + intros Hne. apply Hsearch. unfold nonempty.
      apply negb_true_iff, String.eqb_neq. exact Hne.
    + rewrite Htrace. cbn [typed trace]. rewrite !fetched_app, !fetched_retry_trace.
      assert (Hnone : fetched tail = [])
        by (destruct Htail as [-> | (e & -> & _)]; reflexivity).
      rewrite Hnone, app_nil_r. reflexivity.
  - intros ->. rewrite String.eqb_refl. cbn [fst snd typed trace app].
    repeat split. destruct m as [[] ? ?]. reflexivity.
Qed.

Lemma type_text_fetches_witness :
  searchTerm (app (snd (type_text (Some "token") steady "batman" boot))) = "batman" /\
  app (snd (type_text (Some "token") steady "" boot)) = app boot.
Proof.
  split.
  - refine (proj1 (proj2 (proj1 (type_text_fetches (Some "token") steady "batman" boot) _))).
    discriminate.
  - refine (proj2 (proj2 (proj2 (type_text_fetches (Some "token") steady "" boot) eq_refl))).
Defined.

(** ** Edges of a run *)

(** X17. Without a credential the run does not clear the movie list, as
    every other error path does: the list stays what it was.  It is not
    shown, though: the section renders the configuration message. *)
Theorem fetchMovies_unconfigured_keeps_list API_KEY net query m :
  key_missing API_KEY = true ->
  movieList (app (snd (fetchMovies API_KEY net query m))) = movieList (app m) /\
  movies_section (app (snd (fetchMovies API_KEY net query m))) =
    Normal (ErrorLine "API key is missing. Please check your configuration.").
Proof.
  intros Hkey. rewrite fetchMovies_unconfigured by exact Hkey. split; reflexivity.
Qed.

Lemma fetchMovies_unconfigured_keeps_list_witness :
  movieList (app (snd (fetchMovies (Some "") steady "batman"
                         (snd (fetchMovies (Some "token") steady "" boot))))) =
  movieList (app (snd (fetchMovies (Some "token") steady "" boot))).
Proof.
  apply (proj1 (fetchMovies_unconfigured_keeps_list (Some "") steady "batman"
                  (snd (fetchMovies (Some "token") steady "" boot)) eq_refl)).
Defined.

(** X18. When browsing, a failure on page 2 loses page 1: if page 1 came
    with records and the lookup of page 2 throws after its retries, the
    list is left empty and the message is the one for that error. *)
Theorem fetchMovies_second_page_fails API_KEY net m data1 m1 records1 shown1 e m2 :
  key_missing API_KEY = false ->
  fetchWithRetry net (endpoint "" 1) (API_OPTIONS API_KEY) 3 1000 (loading m)
    = (Normal data1, m1) ->
  page_with data1 records1 ->
  map_throwing transform records1 = Normal shown1 ->
  fetchWithRetry net (endpoint "" 2) (API_OPTIONS API_KEY) 3 1000 m1 = (Threw e, m2) ->
  movieList (app (snd (fetchMovies API_KEY net "" m))) = [] /\
  errorMessage (app (snd (fetchMovies API_KEY net "" m))) = error_text e /\
  trace (snd (fetchMovies API_KEY net "" m)) =
    (trace m2 ++ [EvConsoleError "Error fetching movies:" e])%list.
Proof.
  intros Hkey Hlookup1 Hpage Hmap Hlookup2.
  rewrite fetchMovies_configured by exact Hkey.
  rewrite fetchMovies_try_browse by reflexivity. unfold lookup_page.
  rewrite Hlookup1, (examine_records data1 records1 shown1 Hpage Hmap), Hlookup2.
  repeat split.
Qed.

Lemma fetchMovies_second_page_fails_witness :
  movieList (app (snd (fetchMovies (Some "token") second_page_down "" boot))) = [] /\
  errorMessage (app (snd (fetchMovies (Some "token") second_page_down "" boot))) =
    "Error fetching movies. Please try again later.".
Proof.
  destruct (fetchMovies_second_page_fails (Some "token") second_page_down boot
              (Some (body_of [sample_movie])) _ [sample_movie] _
              (Error "HTTP error! status: 503") _
              eq_refl eq_refl (conj eq_refl (fun H => nil_cons (eq_sym H))) eq_refl eq_refl)
    as (Hlist & Hmsg & _).
  split; [exact Hlist | rewrite Hmsg; reflexivity].
Defined.

(** ** Failures of the code's own making *)

Lemma to_string_throws :
  forall v e, to_string v = Threw e ->
              e = TypeError "Cannot convert object to primitive value".
Proof.
  fix IH 1. intros v e. destruct v as [| b | r | s | elems | props].
  - discriminate.
  - destruct b; discriminate.
  - discriminate.
  - discriminate.
  - cbn [to_string]. revert e.
    induction elems as [| x rest IHrest]; intros e; [discriminate |].
    assert (Hx : forall e0,
              match x with JNull => Normal "" | _ => to_string x end = Threw e0 ->
              e0 = TypeError "Cannot convert object to primitive value").
    { pose proof (IH x) as IHx. intros e0 H0.
      destruct x; try discriminate H0; apply (IHx e0 H0). }
    destruct rest as [| y rest'].
    + intros H. apply (Hx e H).
    + destruct (match x with JNull => Normal "" | _ => to_string x end) as [sx | ex] eqn:Ex.
      * intros H. apply IHrest.
        match type of H with
        | match ?j with _ => _ end = _ =>
            assert (Hj : j = Threw e) by (destruct j; [discriminate H | exact H]);
            exact Hj
        end.
      * intros H. injection H as <-. apply Hx. reflexivity.
  - cbn [to_string]. destruct (lookup "toString" props); [| discriminate].
    intros H. injection H as <-. reflexivity.
Qed.

Lemma transform_throws movie e :
  transform movie = Threw e -> In e internal_errors.
Proof.
  unfold transform, internal_errors.
  destruct movie as [| b | r | s | elems | props]; cbn [member spread lookup].
  - intros H. injection H as <-. simpl. tauto.
  - cbn [poster_url truthy]. discriminate.
  - cbn [poster_url truthy]. discriminate.
  - cbn [poster_url truthy]. discriminate.
  - cbn [poster_url truthy]. discriminate.
  - unfold poster_url. destruct (truthy (lookup "poster_path" props)); [| discriminate].
    destruct (to_string_opt (lookup "poster_path" props)) as [url | e0] eqn:Hurl;
      [discriminate |].
    intros H. injection H as <-.
    destruct (lookup "poster_path" props) as [v |]; [| discriminate Hurl].
    cbn [to_string_opt] in Hurl. rewrite (to_string_throws v e0 Hurl). simpl. tauto.
Qed.

Lemma map_transform_throws records e :
  map_throwing transform records = Threw e -> In e internal_errors.
Proof.
  induction records as [| raw records IH]; [discriminate |].
  cbn [map_throwing]. destruct (transform raw) as [movie | e0] eqn:Hraw.
  - destruct (map_throwing transform records) as [rest | e1]; [discriminate |].
    intros H. injection H as <-. apply IH. reflexivity.
  - intros H. injection H as <-. apply (transform_throws raw). exact Hraw.
Qed.

Lemma examine_faults data e : examine data = Faulty e -> In e internal_errors.
Proof.
  unfold examine.
  destruct data as [[| b | r | s | elems | props] |]; cbn [member].
  - intros H. injection H as <-. unfold internal_errors. simpl. tauto.
  - cbn. discriminate.
  - cbn. discriminate.
  - cbn. discriminate.
  - cbn. discriminate.
  - destruct (lookup "results" props) as [[| b | r | s | elems | fields] |];
      unfold no_results; cbn [truthy negb length_is_zero map_results];
      try discriminate.
    + destruct b; cbn; [| discriminate].
      intros H. injection H as <-. unfold internal_errors. simpl. tauto.
    + destruct (negb (r =? "0")%string && negb (r =? "NaN")%string); cbn;
        [| discriminate].
      intros H. injection H as <-. unfold internal_errors. simpl. tauto.
    + destruct (negb (s =? "")%string) eqn:Hs; cbn; [| discriminate].
      apply negb_true_iff in Hs. rewrite Hs.
      intros H. injection H as <-. unfold internal_errors. simpl. tauto.
    + destruct elems as [| raw elems]; [discriminate |].
      destruct (map_throwing transform (raw :: elems)) as [shown | e0] eqn:Hmap;
        [discriminate |].
      intros H. injection H as <-. apply (map_transform_throws _ _ Hmap).
    + destruct (match lookup "length" fields with
                | Some (JNum r) => (r =? "0")%string
                | _ => false
                end); [discriminate |].
      intros H. injection H as <-. unfold internal_errors. simpl. tauto.
  - intros H. injection H as <-. unfold internal_errors. simpl. tauto.
Qed.

Lemma internal_errors_generic e :
  In e internal_errors -> error_text e = "Error fetching movies. Please try again later.".
Proof.
  unfold internal_errors. simpl. intros H.
  repeat (destruct H as [<- | H]; [vm_compute; reflexivity |]). contradiction.
Qed.

(** X19. A body the code cannot work with never shows as a credential or
    rate-limit problem.  If a page is fetched, the first for any query or
    the second when browsing, but handling it throws (the body is [null],
    [results] is neither empty nor an array, a record is [null], or a
    [poster_path] cannot be printed), the error is one of five fixed
    [TypeError]s, the message shown is the try-again-later one, the list
    is empty and the error is logged. *)
Theorem fetchMovies_faulty_page API_KEY net query m e :
  key_missing API_KEY = false ->
  (forall data m1,
     fetchWithRetry net (endpoint query 1) (API_OPTIONS API_KEY) 3 1000 (loading m)
       = (Normal data, m1) ->
     examine data = Faulty e ->
     In e internal_errors /\
     errorMessage (app (snd (fetchMovies API_KEY net query m))) =
       "Error fetching movies. Please try again later." /\
     movieList (app (snd (fetchMovies API_KEY net query m))) = [] /\
     complaints (trace (snd (fetchMovies API_KEY net query m))) =
       (complaints (trace m1) ++ [e])%list) /\
  (forall data1 m1 records1 shown1 data2 m2,
     query = "" ->
     fetchWithRetry net (endpoint query 1) (API_OPTIONS API_KEY) 3 1000 (loading m)
       = (Normal data1, m1) ->
     page_with data1 records1 ->
     map_throwing transform records1 = Normal shown1 ->
     fetchWithRetry net (endpoint query 2) (API_OPTIONS API_KEY) 3 1000 m1
       = (Normal data2, m2) ->
     examine data2 = Faulty e ->
     In e internal_errors /\
     errorMessage (app (snd (fetchMovies API_KEY net query m))) =
       "Error fetching movies. Please try again later." /\
     movieList (app (snd (fetchMovies API_KEY net query m))) = [] /\
     complaints (trace (snd (fetchMovies API_KEY net query m))) =
       (complaints (trace m2) ++ [e])%list).
Proof.
  intros Hkey. rewrite fetchMovies_configured by exact Hkey. split.
  - intros data m1 Hlookup Hfault.
    pose proof (examine_faults data e Hfault) as Hin.
    pose proof (internal_errors_generic e Hin) as Htext.
    assert (Htry : fetchMovies_try API_KEY net query (loading m) = (Threw e, m1)).
    { destruct (nonempty query) eqn:Hq.
      - rewrite fetchMovies_try_search by exact Hq. unfold lookup_page.
        rewrite Hlookup, Hfault. reflexivity.
      - rewrite fetchMovies_try_browse by exact Hq. unfold lookup_page.
        rewrite Hlookup, Hfault. reflexivity. }
    rewrite Htry. cbn [snd settled refused complained app trace errorMessage movieList].
    rewrite Htext. split; [exact Hin |]. split; [reflexivity |]. split; [reflexivity |].
    unfold complaints. rewrite flat_map_app. reflexivity.
  - intros data1 m1 records1 shown1 data2 m2 -> Hlookup1 Hpage Hmap Hlookup2 Hfault.
    pose proof (examine_faults data2 e Hfault) as Hin.
    pose proof (internal_errors_generic e Hin) as Htext.
    rewrite fetchMovies_try_browse by reflexivity. unfold lookup_page.
    rewrite Hlookup1, (examine_records data1 records1 shown1 Hpage Hmap).
    rewrite Hlookup2, Hfault.
    cbn [snd settled refused complained app trace errorMessage movieList].
    rewrite Htext. split; [exact Hin |]. split; [reflexivity |]. split; [reflexivity |].
    unfold complaints. rewrite flat_map_app. reflexivity.
Qed.

Lemma fetchMovies_faulty_page_witness :
  errorMessage (app (snd (fetchMovies (Some "token") null_body "batman" boot))) =
    "Error fetching movies. Please try again later." /\
  errorMessage (app (snd (fetchMovies (Some "token") null_record "" boot))) =
    "Error fetching movies. Please try again later." /\
  errorMessage (app (snd (fetchMovies (Some "token") odd_second_page "" boot))) =
    "Error fetching movies. Please try again later.".
Proof.
  split; [| split].
  - refine (proj1 (proj2 (proj1 (fetchMovies_faulty_page (Some "token") null_body "batman"
                                   boot
                                   (TypeError "Cannot read properties of null (reading 'results')")
                                   eq_refl)
                            (Some JNull) _ eq_refl eq_refl))).
  - refine (proj1 (proj2 (proj1 (fetchMovies_faulty_page (Some "token") null_record ""
                                   boot
                                   (TypeError "Cannot read properties of null (reading 'poster_path')")
                                   eq_refl)
                            (Some (body_of [sample_movie; JNull])) _ eq_refl eq_refl))).
  - refine (proj1 (proj2 (proj2 (fetchMovies_faulty_page (Some "token") odd_second_page ""
                                   boot
                                   (TypeError "data.results.map is not a function or its return value is not iterable")
                                   eq_refl)
                            (Some (body_of [sample_movie])) _ [sample_movie] _
                            (Some (JObj [("results", JStr "none")])) _
                            eq_refl eq_refl (conj eq_refl (fun H => nil_cons (eq_sym H)))
                            eq_refl eq_refl eq_refl))).
Defined.

(** ** A task run alone *)










Lemma run_ret {A} (a : A) : Async.run (Async.ret a) = ret a.
Proof. reflexivity. Qed.

Lemma run_throw {A} (e : js_error) : Async.run (@Async.throw A e) = throw e.
Proof. reflexivity. Qed.




Section Agreement.

Variable API_KEY : option string.
Variable net : world.












End Agreement.

(** ** Data and error, when runs overlap *)




(** ** The encoding of any text *)

Lemma hex_digit_safe k : uri_safe (hex_digit k) = true.
Proof.
  do 16 (destruct k as [| k]; [reflexivity |]). reflexivity.
Qed.

Lemma percent_safe b : string_all uri_safe (percent b) = true.
Proof.
  unfold percent. cbn [string_all]. rewrite !hex_digit_safe. reflexivity.
Qed.

Lemma escape_bytes_safe bytes : string_all uri_safe (Utf16.escape_bytes bytes) = true.
Proof.
  induction bytes as [| b rest IH]; [reflexivity |].
  cbn [Utf16.escape_bytes]. rewrite string_all_append, percent_safe, IH. reflexivity.
Qed.

Lemma escape_point_safe cp : string_all uri_safe (Utf16.escape_point cp) = true.
Proof.
  unfold Utf16.escape_point. destruct (Utf16.unreserved cp) eqn:Hcp.
  - unfold Utf16.unreserved in Hcp. apply andb_true_iff in Hcp. destruct Hcp as [_ Hc].
    cbn [string_all]. unfold uri_safe. rewrite Hc. reflexivity.
  - apply escape_bytes_safe.
Qed.

(** How an encoding that does not throw is made: nothing for the empty
    text; otherwise what is written for the first code point, a code unit
    that is not a surrogate or a pair of surrogates, followed by the
    encoding of the rest. *)
Lemma encodeURIComponent16_inv text s :
  Utf16.encodeURIComponent text = Normal s ->
  (text = [] /\ s = "") \/
  (exists u rest s',
     text = u :: rest /\ ((u < 55296)%N \/ (57343 < u)%N) /\
     Utf16.encodeURIComponent rest = Normal s' /\
     s = Utf16.escape_point u ++ s') \/
  (exists hi lo rest s',
     text = hi :: lo :: rest /\
     (55296 <= hi < 56320)%N /\ (56320 <= lo <= 57343)%N /\
     Utf16.encodeURIComponent rest = Normal s' /\
     s = Utf16.escape_point (Utf16.pair_point hi lo) ++ s').
Proof.
  destruct text as [| u rest]; cbn [Utf16.encodeURIComponent].
  - intros H. injection H as <-. left. split; reflexivity.
  - destruct ((u <? 55296)%N || (57343 <? u)%N) eqn:Hu.
    + destruct (Utf16.encodeURIComponent rest) as [s' | e] eqn:Hrest; [| discriminate].
      intros H. injection H as <-. right. left. exists u, rest, s'.
      apply orb_true_iff in Hu. rewrite !N.ltb_lt in Hu.
      split; [reflexivity |]. split; [exact Hu |]. split; [exact Hrest | reflexivity].
    + apply orb_false_iff in Hu. rewrite !N.ltb_ge in Hu. destruct Hu as [Hlow Hhigh].
      destruct (u <? 56320)%N eqn:Hhi; [| discriminate].
      destruct rest as [| lo rest']; [discriminate |].
      destruct ((56320 <=? lo)%N && (lo <=? 57343)%N) eqn:Hlo; [| discriminate].
      destruct (Utf16.encodeURIComponent rest') as [s' | e] eqn:Hrest; [| discriminate].
      intros H. injection H as <-. right. right. exists u, lo, rest', s'.
      apply N.ltb_lt in Hhi. apply andb_true_iff in Hlo. rewrite !N.leb_le in Hlo.
      split; [reflexivity |]. split; [lia |]. split; [lia |].
      split; [exact Hrest | reflexivity].
Qed.

(** An encoding holds only unreserved characters and percent signs. *)
Lemma encodeURIComponent16_safe text s :
  Utf16.encodeURIComponent text = Normal s -> string_all uri_safe s = true.
Proof.
  remember (length text) as n eqn:Hn. revert text s Hn.
  induction n as [n IH] using lt_wf_ind. intros text s Hn Henc.
  destruct (encodeURIComponent16_inv text s Henc)
    as [[-> ->] | [(u & rest & s' & -> & _ & Hrest & ->)
                  | (hi & lo & rest & s' & -> & _ & _ & Hrest & ->)]].
  - reflexivity.
  - rewrite string_all_append, escape_point_safe.
    apply (IH (length rest)) with (text := rest); [subst n; simpl; lia | reflexivity | exact Hrest].
  - rewrite string_all_append, escape_point_safe.
    apply (IH (length rest)) with (text := rest); [subst n; simpl; lia | reflexivity | exact Hrest].
Qed.

Lemma escape_point_agrees c :
  (((N.of_nat (nat_of_ascii c) <? 55296) || (57343 <? N.of_nat (nat_of_ascii c)))%N = true) /\
  Utf16.escape_point (N.of_nat (nat_of_ascii c)) = escape_unit c.
Proof.
  destruct c as [[] [] [] [] [] [] [] []]; split; vm_compute; reflexivity.
Qed.

(** On the strings of the model the full encoding is the one above. *)
Lemma encodeURIComponent16_agrees s :
  Utf16.encodeURIComponent (Utf16.units s) = Normal (encodeURIComponent s).
Proof.
  induction s as [| c s IH]; [reflexivity |].
  cbn [Utf16.units Utf16.encodeURIComponent].
  destruct (escape_point_agrees c) as [Hc Hpoint].
  rewrite Hc, IH, Hpoint, encodeURIComponent_cons. reflexivity.
Qed.

Lemma endpoint16_agrees s page :
  Utf16.endpoint (Utf16.units s) page = Normal (endpoint s page).
Proof.
  unfold Utf16.endpoint, endpoint, nonempty. destruct s as [| c s]; [reflexivity |].
  rewrite encodeURIComponent16_agrees. reflexivity.
Qed.

(** ** Reading an encoding back *)

Lemma hex_value_hex_digit k : (k < 16)%nat -> hex_value (hex_digit k) = Some k.
Proof.
  intros Hk. do 16 (destruct k as [| k]; [reflexivity |]). lia.
Qed.

Lemma read_byte_percent b rest :
  (b < 256)%N ->
  Utf16.read_byte (percent (N.to_nat b) ++ rest) = Some (b, rest).
Proof.
  intros Hb. unfold Utf16.read_byte, percent. cbn [append read_escape].
  assert (Hhi : (N.to_nat b / 16 < 16)%nat)
    by (apply Nat.Div0.div_lt_upper_bound; lia).
  assert (Hlo : (N.to_nat b mod 16 < 16)%nat) by (apply Nat.mod_upper_bound; lia).
  rewrite (hex_value_hex_digit _ Hhi), (hex_value_hex_digit _ Hlo).
  rewrite <- Nat.div_mod_eq, N2Nat.id. reflexivity.
Qed.

Lemma decode_first_percent b rest :
  (b < 256)%N ->
  Utf16.decode_first (percent (N.to_nat b) ++ rest) = Utf16.decode_escaped b rest.
Proof.
  intros Hb. pose proof (read_byte_percent b rest Hb) as Hread.
  unfold Utf16.decode_first. unfold percent in *. cbn [append] in *.
  rewrite Hread. reflexivity.
Qed.

Lemma escape_bytes_app b bytes rest :
  Utf16.escape_bytes (b :: bytes) ++ rest =
  percent (N.to_nat b) ++ (Utf16.escape_bytes bytes ++ rest).
Proof. cbn [Utf16.escape_bytes]. apply append_assoc_string. Qed.

Lemma group_unit u : (u < 65536)%N -> Utf16.group u = [u].
Proof.
  intros Hu. unfold Utf16.group.
  replace (u <? 65536)%N with true by (symmetry; apply N.ltb_lt; exact Hu).
  reflexivity.
Qed.

Lemma group_pair hi lo :
  (55296 <= hi < 56320)%N -> (56320 <= lo <= 57343)%N ->
  Utf16.group (Utf16.pair_point hi lo) = [hi; lo] /\
  (Utf16.pair_point hi lo < 1114112)%N.
Proof.
  intros Hhi Hlo. unfold Utf16.group, Utf16.pair_point.
  replace (65536 + (hi - 55296) * 1024 + (lo - 56320) <? 65536)%N with false
    by (symmetry; apply N.ltb_ge; lia).
  split; [| lia].
  f_equal; [| f_equal].
  - assert (H : ((65536 + (hi - 55296) * 1024 + (lo - 56320) - 65536) / 1024
                 = hi - 55296)%N).
    { symmetry. apply (N.div_unique _ _ _ (lo - 56320)); lia. }
    rewrite H. lia.
  - assert (H : ((65536 + (hi - 55296) * 1024 + (lo - 56320) - 65536) mod 1024
                 = lo - 56320)%N).
    { symmetry. apply (N.mod_unique _ _ (hi - 55296)); lia. }
    rewrite H. lia.
Qed.

(** What is written for a code point reads back as its code units. *)
Lemma decode_escape_point cp rest :
  (cp < 1114112)%N ->
  Utf16.decode_first (Utf16.escape_point cp ++ rest) = Some (Utf16.group cp, rest).
Proof.
  intros Hcp. unfold Utf16.escape_point.
  destruct (Utf16.unreserved cp) eqn:Hun.
  - unfold Utf16.unreserved in Hun. apply andb_true_iff in Hun.
    destruct Hun as [Hlow Hc]. apply N.ltb_lt in Hlow.
    cbn [append]. unfold Utf16.decode_first. rewrite Hc.
    rewrite group_unit by lia. unfold nat_of_ascii.
    rewrite N2Nat.id, N_ascii_embedding by lia. reflexivity.
  - unfold Utf16.utf8.
    destruct (cp <? 128)%N eqn:H1; [| destruct (cp <? 2048)%N eqn:H2;
                                     [| destruct (cp <? 65536)%N eqn:H3]].
    + apply N.ltb_lt in H1.
      rewrite escape_bytes_app. cbn [Utf16.escape_bytes append].
      rewrite decode_first_percent by lia.
      unfold Utf16.decode_escaped.
      replace (cp <? 128)%N with true by (symmetry; apply N.ltb_lt; lia).
      reflexivity.
    + apply N.ltb_ge in H1. apply N.ltb_lt in H2.
      pose proof (N.div_mod cp 64 ltac:(lia)) as Hdm.
      pose proof (N.mod_lt cp 64 ltac:(lia)) as Hm.
      remember (cp / 64)%N as q1 eqn:Eq1. remember (cp mod 64)%N as r1 eqn:Er1.
      clear Eq1 Er1.
      rewrite !escape_bytes_app. cbn [Utf16.escape_bytes append].
      rewrite decode_first_percent by lia.
      unfold Utf16.decode_escaped.
      replace (192 + q1 <? 128)%N with false by (symmetry; apply N.ltb_ge; lia).
      rewrite read_byte_percent by lia.
      replace (192 + q1 <? 224)%N with true by (symmetry; apply N.ltb_lt; lia).
      do 3 f_equal. lia.
    + apply N.ltb_ge in H2. apply N.ltb_lt in H3.
      replace (cp / 4096)%N with (cp / 64 / 64)%N
        by (rewrite N.Div0.div_div; reflexivity).
      pose proof (N.div_mod cp 64 ltac:(lia)) as Hdm.
      pose proof (N.mod_lt cp 64 ltac:(lia)) as Hm.
      pose proof (N.div_mod (cp / 64) 64 ltac:(lia)) as Hdm2.
      pose proof (N.mod_lt (cp / 64) 64 ltac:(lia)) as Hm2.
      remember (cp / 64)%N as q1 eqn:Eq1. remember (cp mod 64)%N as r1 eqn:Er1.
      remember (q1 / 64)%N as q2 eqn:Eq2. remember (q1 mod 64)%N as r2 eqn:Er2.
      clear Eq1 Er1 Eq2 Er2.
      rewrite !escape_bytes_app. cbn [Utf16.escape_bytes append].
      rewrite decode_first_percent by lia.
      unfold Utf16.decode_escaped.
      replace (224 + q2 <? 128)%N with false by (symmetry; apply N.ltb_ge; lia).
      rewrite read_byte_percent by lia.
      replace (224 + q2 <? 224)%N with false by (symmetry; apply N.ltb_ge; lia).
      rewrite read_byte_percent by lia.
      replace (224 + q2 <? 240)%N with true by (symmetry; apply N.ltb_lt; lia).
      do 3 f_equal. lia.
    + apply N.ltb_ge in H3.
      replace (cp / 262144)%N with (cp / 64 / 64 / 64)%N
        by (rewrite !N.Div0.div_div; reflexivity).
      replace (cp / 4096)%N with (cp / 64 / 64)%N
        by (rewrite N.Div0.div_div; reflexivity).
      pose proof (N.div_mod cp 64 ltac:(lia)) as Hdm.
      pose proof (N.mod_lt cp 64 ltac:(lia)) as Hm.
      pose proof (N.div_mod (cp / 64) 64 ltac:(lia)) as Hdm2.
      pose proof (N.mod_lt (cp / 64) 64 ltac:(lia)) as Hm2.
      pose proof (N.div_mod (cp / 64 / 64) 64 ltac:(lia)) as Hdm3.
      pose proof (N.mod_lt (cp / 64 / 64) 64 ltac:(lia)) as Hm3.
      remember (cp / 64)%N as q1 eqn:Eq1. remember (cp mod 64)%N as r1 eqn:Er1.
      remember (q1 / 64)%N as q2 eqn:Eq2. remember (q1 mod 64)%N as r2 eqn:Er2.
      remember (q2 / 64)%N as q3 eqn:Eq3. remember (q2 mod 64)%N as r3 eqn:Er3.
      clear Eq1 Er1 Eq2 Er2 Eq3 Er3.
      rewrite !escape_bytes_app. cbn [Utf16.escape_bytes append].
      rewrite decode_first_percent by lia.
      unfold Utf16.decode_escaped.
      replace (240 + q3 <? 128)%N with false by (symmetry; apply N.ltb_ge; lia).
      rewrite read_byte_percent by lia.
      replace (240 + q3 <? 224)%N with false by (symmetry; apply N.ltb_ge; lia).
      rewrite read_byte_percent by lia.
      replace (240 + q3 <? 240)%N with false by (symmetry; apply N.ltb_ge; lia).
      rewrite read_byte_percent by lia.
      do 3 f_equal. lia.
Qed.

(** The head of an encoding that does not throw, for a text of code units:
    the code units first written, and the encoding of the others. *)
Lemma encodeURIComponent16_head text s :
  Forall (fun u => (u < 65536)%N) text ->
  Utf16.encodeURIComponent text = Normal s ->
  (text = [] /\ s = "") \/
  (exists first rest s',
     text = (first ++ rest)%list /\
     (length rest < length text)%nat /\
     Forall (fun u => (u < 65536)%N) rest /\
     Utf16.encodeURIComponent rest = Normal s' /\
     forall t, Utf16.decode_first (s ++ t) = Some (first, s' ++ t)).
Proof.
  intros Hunits Henc.
  destruct (encodeURIComponent16_inv text s Henc)
    as [[-> ->] | [(u & rest & s' & -> & _ & Hrest & ->)
                  | (hi & lo & rest & s' & -> & Hhi & Hlo & Hrest & ->)]].
  - left. split; reflexivity.
  - right. exists [u], rest, s'.
    inversion Hunits as [| u' rest' Hu Hothers]; subst.
    split; [reflexivity |]. split; [simpl; lia |]. split; [exact Hothers |].
    split; [exact Hrest |].
    intros t. rewrite append_assoc_string, decode_escape_point by lia.
    rewrite group_unit by exact Hu. reflexivity.
  - right. exists [hi; lo], rest, s'.
    inversion Hunits as [| u1 rest1 _ Hothers1]; subst.
    inversion Hothers1 as [| u2 rest2 _ Hothers]; subst.
    destruct (group_pair hi lo Hhi Hlo) as [Hgroup Hbound].
    split; [reflexivity |]. split; [simpl; lia |]. split; [exact Hothers |].
    split; [exact Hrest |].
    intros t. rewrite append_assoc_string, decode_escape_point by exact Hbound.
    rewrite Hgroup. reflexivity.
Qed.

(** Two encodings that agree up to what follows them, where what follows
    cannot be mistaken for encoded text, come from the same text. *)
Lemma encodeURIComponent16_cancel text1 :
  forall text2 s1 s2 t1 t2,
    Forall (fun u => (u < 65536)%N) text1 ->
    Forall (fun u => (u < 65536)%N) text2 ->
    Utf16.encodeURIComponent text1 = Normal s1 ->
    Utf16.encodeURIComponent text2 = Normal s2 ->
    Utf16.decode_first t1 = None ->
    Utf16.decode_first t2 = None ->
    s1 ++ t1 = s2 ++ t2 ->
    text1 = text2 /\ t1 = t2.
Proof.
  remember (length text1) as n eqn:Hn. revert text1 Hn.
  induction n as [n IH] using lt_wf_ind.
  intros text1 Hn text2 s1 s2 t1 t2 Hu1 Hu2 He1 He2 Ht1 Ht2 Heq.
  destruct (encodeURIComponent16_head text1 s1 Hu1 He1)
    as [[-> ->] | (first1 & rest1 & s1' & -> & Hlen1 & Hr1 & Her1 & Hdec1)];
  destruct (encodeURIComponent16_head text2 s2 Hu2 He2)
    as [[-> ->] | (first2 & rest2 & s2' & -> & Hlen2 & Hr2 & Her2 & Hdec2)].
  - split; [reflexivity | exact Heq].
  - exfalso. cbn [append] in Heq. rewrite Heq, Hdec2 in Ht1. discriminate.
  - exfalso. cbn [append] in Heq. rewrite <- Heq, Hdec1 in Ht2. discriminate.
  - pose proof (Hdec1 t1) as H1. rewrite Heq, Hdec2 in H1.
    injection H1 as Hfirst Hrest.
    destruct (IH (length rest1) ltac:(lia) rest1 eq_refl rest2 s1' s2' t1 t2
                Hr1 Hr2 Her1 Her2 Ht1 Ht2 (eq_sym Hrest)) as [-> ->].
    rewrite Hfirst. split; reflexivity.
Qed.

(** ** Reading the parameters *)

Lemma split_amp_plain s :
  string_all (fun c => negb (Ascii.eqb c "&")) s = true -> split_amp s = [s].
Proof.
  induction s as [| c s IH]; [reflexivity |].
  cbn [string_all split_amp]. rewrite andb_true_iff. intros [Hc Hs].
  apply negb_true_iff in Hc. rewrite Hc, (IH Hs). reflexivity.
Qed.

Lemma split_amp_append s t :
  string_all (fun c => negb (Ascii.eqb c "&")) s = true ->
  split_amp (s ++ String "&" t) = s :: split_amp t.
Proof.
  induction s as [| c s IH]; [reflexivity |].
  cbn [string_all split_amp append]. rewrite andb_true_iff. intros [Hc Hs].
  apply negb_true_iff in Hc. rewrite Hc, (IH Hs). reflexivity.
Qed.

Lemma uri_safe_no_amp c : uri_safe c = true -> negb (Ascii.eqb c "&") = true.
Proof. destruct c as [[] [] [] [] [] [] [] []]; vm_compute; congruence. Qed.

(** X10. Whatever text is searched for, in any script, the address
    requested has exactly the three parameters of the template: [query]
    with the encoded text, [language=en-US] and [page].  The encoded text
    holds none of the characters that structure an address ([&], [=],
    [?], [#], [/], [+], the space), so the text typed cannot add or change
    a parameter.  For a text of the model's strings the address is the
    one [endpoint] gives. *)
Theorem endpoint_parameters query page url :
  query <> [] ->
  page = 1 \/ page = 2 ->
  Utf16.endpoint query page = Normal url ->
  (exists encoded,
     Utf16.encodeURIComponent query = Normal encoded /\
     string_all (fun c => negb (uri_delimiter c)) encoded = true /\
     parameters url =
       ["query=" ++ encoded; "language=en-US"; "page=" ++ Z_to_string page]) /\
  (forall text, query = Utf16.units text -> url = endpoint text page).
Proof.
  intros Hquery Hpage Hurl. split.
  - unfold Utf16.endpoint in Hurl. destruct query as [| u rest]; [contradiction |].
    destruct (Utf16.encodeURIComponent (u :: rest)) as [encoded | e] eqn:Henc;
      [| discriminate].
    assert (Hafter : after_question url =
                     ("query=" ++ encoded)
                     ++ String "&" ("language=en-US&page=" ++ Z_to_string page)).
    { injection Hurl as <-.
      transitivity ("query=" ++ encoded ++ "&language=en-US&page=" ++ Z_to_string page);
        [reflexivity | rewrite append_assoc_string; reflexivity]. }
    exists encoded.
    pose proof (encodeURIComponent16_safe _ _ Henc) as Hsafe.
    split; [reflexivity |]. split.
    + apply (string_all_weaken uri_safe); [| exact Hsafe].
      intros c Hc. rewrite (uri_safe_no_delimiter c Hc). reflexivity.
    + unfold parameters. rewrite Hafter, split_amp_append.
      * destruct Hpage as [-> | ->]; reflexivity.
      * rewrite string_all_append. cbn [string_all Ascii.eqb Bool.eqb negb andb].
        apply (string_all_weaken uri_safe); [apply uri_safe_no_amp | exact Hsafe].
  - intros text ->. rewrite endpoint16_agrees in Hurl. injection Hurl as <-. reflexivity.
Qed.

Lemma endpoint_parameters_witness :
  parameters
    "https://api.themoviedb.org/3/search/movie?query=%E6%97%A5%E6%9C%AC%26%F0%9F%98%80&language=en-US&page=1"
  = ["query=%E6%97%A5%E6%9C%AC%26%F0%9F%98%80"; "language=en-US"; "page=1"].
Proof.
  destruct (proj1 (endpoint_parameters [26085; 26412; 38; 55357; 56832]%N 1 _
                     ltac:(discriminate) (or_introl eq_refl) eq_refl))
    as (encoded & Henc & _ & Hparams).
  injection Henc as <-. exact Hparams.
Defined.

(** X12. Two searches are sent to the same address only if they are for
    the same text and the same page, and a search is never sent to an
    address used for browsing.  This holds for every text of UTF-16 code
    units that [encodeURIComponent] accepts, in any script: escapes of
    one to four bytes are read back to the code units they were written
    for. *)
Theorem endpoint_separates query1 query2 page1 page2 url :
  Forall (fun u => (u < 65536)%N) query1 ->
  Forall (fun u => (u < 65536)%N) query2 ->
  query1 <> [] ->
  Utf16.endpoint query1 page1 = Normal url ->
  Utf16.endpoint query2 page2 = Normal url ->
  query1 = query2 /\ Z_to_string page1 = Z_to_string page2.
Proof.
  intros Hu1 Hu2 Hq1 H1 H2. unfold Utf16.endpoint in H1, H2.
  destruct query1 as [| u1 rest1]; [contradiction |].
  destruct (Utf16.encodeURIComponent (u1 :: rest1)) as [s1 | e1] eqn:He1;
    [| discriminate].
  destruct query2 as [| u2 rest2].
  - exfalso.
    assert (H : API_BASE_URL ++ "/search/movie?query=" ++ s1
                  ++ "&language=en-US&page=" ++ Z_to_string page1 =
                API_BASE_URL
                  ++ "/discover/movie?sort_by=popularity.desc&language=en-US&page="
                  ++ Z_to_string page2) by congruence.
    apply append_cancel in H. discriminate H.
  - destruct (Utf16.encodeURIComponent (u2 :: rest2)) as [s2 | e2] eqn:He2;
      [| discriminate].
    assert (H : API_BASE_URL ++ "/search/movie?query=" ++ s1
                  ++ "&language=en-US&page=" ++ Z_to_string page1 =
                API_BASE_URL ++ "/search/movie?query=" ++ s2
                  ++ "&language=en-US&page=" ++ Z_to_string page2) by congruence.
    do 2 apply append_cancel in H.
    destruct (encodeURIComponent16_cancel
                _ _ _ _
                ("&language=en-US&page=" ++ Z_to_string page1)
                ("&language=en-US&page=" ++ Z_to_string page2)
                Hu1 Hu2 He1 He2 eq_refl eq_refl H)
      as [Hq Ht].
    split; [exact Hq |].
    apply (append_cancel "&language=en-US&page=") in Ht. exact Ht.
Qed.

Lemma endpoint_separates_witness :
  [26085; 26412; 55357; 56832]%N = [26085; 26412; 55357; 56832]%N /\
  Z_to_string 1 = Z_to_string 1.
Proof.
  refine (endpoint_separates
            [26085; 26412; 55357; 56832]%N [26085; 26412; 55357; 56832]%N 1 1
            "https://api.themoviedb.org/3/search/movie?query=%E6%97%A5%E6%9C%AC%F0%9F%98%80&language=en-US&page=1"
            _ _ _ eq_refl eq_refl).
  - repeat (constructor; try reflexivity).
  - repeat (constructor; try reflexivity).
  - discriminate.
Defined.
